(** * @corvid-agent/env: typed parsing of environment variables

    A shallow embedding of [src/index.ts] (the type parsers, [env],
    [normalizeConfig], [envSchema]) and the properties of its
    specification.

    Conventions of the embedding.
    - A JavaScript string is a [string]; each character stands for one
      code unit in U+0000..U+00FF, and [trim] and [toLowerCase] are the
      built-ins restricted to that range.
    - A JavaScript number is an IEEE 754 binary64 value: [spec_float] of
      the standard library with precision 53 and maximal exponent 1024.
      [Number(s)] is StringToNumber of ECMAScript: the grammar
      StringNumericLiteral, and the mathematical value of the literal
      rounded to nearest, ties to even.
    - A JavaScript value is a [jsvalue]; objects, functions among them,
      are opaque references whose conversions to a string and to a
      number the host gives, and which convert without throwing.
    - An object read by key ([src[key]]) is the finite map of what
      reading each key yields, own property or inherited member alike;
      a key outside the map reads as [undefined]. A plain object such
      as [{}] or [process.env] inherits the members of
      [Object.prototype]. An object written by key ([result[name] = v])
      is the finite map of its own properties; on a plain object the
      name __proto__ is a setter and adds none.
    - [throw] is the [Throw] case of [result]. The functions a config
      supplies ([transform], [validate]) return or throw; their calls are
      recorded, in order, in the log of the computation [M].
    - A schema is the sequence of entries [Object.entries] yields. *)

From Stdlib Require Import Floats.SpecFloat.
From stdpp Require Import gmap strings list fin_maps.
From Stdlib Require Import Ascii String ZArith Lia.

Local Open Scope string_scope.
Local Open Scope Z_scope.

(** ** Strings: the built-ins the program calls *)

Module JsString.

Definition dquote : string := String "034"%char EmptyString.
Definition newline : string := String "010"%char EmptyString.

Definition code (c : ascii) : Z := Z.of_N (N_of_ascii c).

(** WhiteSpace and LineTerminator code points below U+0100:
    TAB, LF, VT, FF, CR, SP, NBSP. *)
Definition isWhiteSpace (c : ascii) : bool :=
  let n := code c in
  ((9 <=? n) && (n <=? 13)) || (n =? 32) || (n =? 160).

Fixpoint trimStart (s : string) : string :=
  match s with
  | EmptyString => EmptyString
  | String c s' => if isWhiteSpace c then trimStart s' else s
  end.

Fixpoint trimEnd (s : string) : string :=
  match s with
  | EmptyString => EmptyString
  | String c s' =>
      match trimEnd s' with
      | EmptyString => if isWhiteSpace c then EmptyString else String c EmptyString
      | t => String c t
      end
  end.

(** [String.prototype.trim] *)
Definition trim (s : string) : string := trimEnd (trimStart s).

(** Lower-case mapping of one code unit below U+0100: A-Z, and
    U+00C0..U+00DE except the multiplication sign U+00D7. *)
Definition lowerChar (c : ascii) : ascii :=
  let n := code c in
  if ((65 <=? n) && (n <=? 90))
     || ((192 <=? n) && (n <=? 222) && negb (n =? 215))
  then ascii_of_N (Z.to_N (n + 32)) else c.

(** [String.prototype.toLowerCase] *)
Fixpoint toLowerCase (s : string) : string :=
  match s with
  | EmptyString => EmptyString
  | String c s' => String (lowerChar c) (toLowerCase s')
  end.

(** [Array.prototype.join] on strings *)
Fixpoint join (sep : string) (l : list string) : string :=
  match l with
  | [] => EmptyString
  | [x] => x
  | x :: l' => x ++ sep ++ join sep l'
  end.

Definition eqb (a b : string) : bool := bool_decide (a = b).

End JsString.

(** ** Numbers: binary64 and the conversion [Number(string)] *)

Module JsNumber.

Definition prec : Z := 53.
Definition emax : Z := 1024.

Definition number : Type := spec_float.

Definition NaN : number := S754_nan.
Definition Infinity (neg : bool) : number := S754_infinity neg.

(** The number nearest to the integer [z] (ties to even). *)
Definition ofZ (z : Z) : number := binary_normalize prec emax z 0 false.

(** The number nearest to [p / q] with sign [neg]. *)
Definition ofRatio (neg : bool) (p q : positive) : number :=
  let '(m, e, l) := SFdiv_core_binary prec emax (Zpos p) 0 (Zpos q) 0 in
  binary_round_aux prec emax neg m e l.

(** The number nearest to [mant * 10 ^ exp10] with sign [neg]. *)
Definition ofDecimal (neg : bool) (mant : N) (exp10 : Z) : number :=
  match mant with
  | N0 => S754_zero neg
  | Npos p =>
      if 0 <=? exp10
      then binary_round prec emax neg (p * Z.to_pos (10 ^ exp10))%positive 0
      else ofRatio neg p (Z.to_pos (10 ^ (- exp10)))
  end.

(** [isNaN] on a number *)
Definition isNaN (x : number) : bool :=
  match x with S754_nan => true | _ => false end.

(** The signed mantissa and exponent of a finite number. *)
Definition finite (x : number) : option (Z * Z) :=
  match x with
  | S754_zero _ => Some (0, 0)
  | S754_finite s m e => Some (if s then Zneg m else Zpos m, e)
  | _ => None
  end.

(** The integer a number denotes, when it is finite and integral. *)
Definition toZ (x : number) : option Z :=
  match finite x with
  | Some (m, e) =>
      if 0 <=? e then Some (m * 2 ^ e)
      else if m mod 2 ^ (- e) =? 0 then Some (m / 2 ^ (- e)) else None
  | None => None
  end.

(** [Number.isInteger] *)
Definition isInteger (x : number) : bool :=
  match toZ x with Some _ => true | None => false end.

(** Exact comparison of [m1 * 2 ^ e1] with [m2 * 2 ^ e2]. *)
Definition cmpFinite (a b : Z * Z) : comparison :=
  let '(m1, e1) := a in
  let '(m2, e2) := b in
  let e := Z.min e1 e2 in
  Z.compare (m1 * 2 ^ (e1 - e)) (m2 * 2 ^ (e2 - e)).

(** IEEE comparison; [None] when an operand is NaN. *)
Definition compare (x y : number) : option comparison :=
  match x, y with
  | S754_nan, _ | _, S754_nan => None
  | S754_infinity s1, S754_infinity s2 =>
      Some (match s1, s2 with
            | true, false => Lt
            | false, true => Gt
            | _, _ => Eq
            end)
  | S754_infinity s, _ => Some (if s then Lt else Gt)
  | _, S754_infinity s => Some (if s then Gt else Lt)
  | _, _ =>
      match finite x, finite y with
      | Some a, Some b => Some (cmpFinite a b)
      | _, _ => None
      end
  end.

(** The operators [<] and [>] *)
Definition lt (x y : number) : bool :=
  match compare x y with Some Lt => true | _ => false end.
Definition gt (x y : number) : bool := lt y x.

(** SameValueZero on numbers: NaN equals NaN, and +0 equals -0. *)
Definition sameValueZero (x y : number) : bool :=
  match compare x y with
  | Some Eq => true
  | Some _ => false
  | None => isNaN x && isNaN y
  end.

(** [Math.abs] *)
Definition abs (x : number) : number := SFabs x.

(** *** StringToNumber: the grammar StringNumericLiteral *)

Definition digit (radix : Z) (c : ascii) : option Z :=
  let n := JsString.code c in
  let d :=
    if (48 <=? n) && (n <=? 57) then n - 48
    else if (97 <=? n) && (n <=? 102) then n - 87
    else if (65 <=? n) && (n <=? 70) then n - 55
    else 99 in
  if d <? radix then Some d else None.

(** The longest prefix of digits: the number they denote so far, how
    many were read, and the rest of the string. *)
Fixpoint digits (radix : Z) (acc : Z) (count : Z) (s : string) : Z * Z * string :=
  match s with
  | EmptyString => (acc, count, s)
  | String c s' =>
      match digit radix c with
      | Some d => digits radix (acc * radix + d) (count + 1) s'
      | None => (acc, count, s)
      end
  end.

(** A parsed StrNumericLiteral. *)
Inductive literal : Type :=
| LInfinity (neg : bool)
| LDecimal (neg : bool) (mant : Z) (exp10 : Z)
| LInteger (n : Z).

(** ExponentPart (optional), then the end of the string. *)
Definition parseExponent (s : string) : option Z :=
  match s with
  | EmptyString => Some 0
  | String c s' =>
      if (JsString.code c =? 101) || (JsString.code c =? 69) then
        let '(neg, s'') :=
          match s' with
          | String "+"%char r => (false, r)
          | String "-"%char r => (true, r)
          | _ => (false, s')
          end in
        match digits 10 0 0 s'' with
        | (x, n, EmptyString) =>
            if 0 <? n then Some (if neg then - x else x) else None
        | _ => None
        end
      else None
  end.

(** StrUnsignedDecimalLiteral *)
Definition parseUnsignedDecimal (neg : bool) (s : string) : option literal :=
  if JsString.eqb s "Infinity" then Some (LInfinity neg) else
  let '(i, ni, rest) := digits 10 0 0 s in
  match rest with
  | String "."%char rest' =>
      let '(m, nf, rest'') := digits 10 i 0 rest' in
      if 0 <? ni + nf then
        match parseExponent rest'' with
        | Some x => Some (LDecimal neg m (x - nf))
        | None => None
        end
      else None
  | _ =>
      if 0 <? ni then
        match parseExponent rest with
        | Some x => Some (LDecimal neg i x)
        | None => None
        end
      else None
  end.

(** NonDecimalIntegerLiteral after its prefix *)
Definition parseRadix (radix : Z) (s : string) : option literal :=
  match digits radix 0 0 s with
  | (n, k, EmptyString) => if 0 <? k then Some (LInteger n) else None
  | _ => None
  end.

(** StrNumericLiteral *)
Definition parseLiteral (s : string) : option literal :=
  match s with
  | String "0"%char (String c s') =>
      let n := JsString.code c in
      if (n =? 120) || (n =? 88) then parseRadix 16 s'
      else if (n =? 111) || (n =? 79) then parseRadix 8 s'
      else if (n =? 98) || (n =? 66) then parseRadix 2 s'
      else parseUnsignedDecimal false s
  | String "+"%char s' => parseUnsignedDecimal false s'
  | String "-"%char s' => parseUnsignedDecimal true s'
  | _ => parseUnsignedDecimal false s
  end.

(** StringNumericValue *)
Definition literalValue (l : literal) : number :=
  match l with
  | LInfinity neg => Infinity neg
  | LDecimal neg mant exp10 => ofDecimal neg (Z.to_N mant) exp10
  | LInteger n => ofDecimal false (Z.to_N n) 0
  end.

(** StringNumericLiteral: white space around an optional literal. *)
Definition parseStringNumericLiteral (s : string) : option (option literal) :=
  match JsString.trim s with
  | EmptyString => Some None
  | t => match parseLiteral t with Some l => Some (Some l) | None => None end
  end.

(** [Number(s)] on a string: StringToNumber. *)
Definition Number (s : string) : number :=
  match parseStringNumericLiteral s with
  | Some None => S754_zero false
  | Some (Some l) => literalValue l
  | None => NaN
  end.

End JsNumber.

(** ** Values, exceptions and the call log *)

Inductive jsvalue : Type :=
| VUndefined
| VNull
| VBool (b : bool)
| VNum (n : JsNumber.number)
| VStr (s : string)
| VObj (ref : N).

(** [class EnvError extends Error] *)
Module EnvError.
Record t : Type := mk { key : string; errors : list string }.

Definition message (e : t) : string :=
  "Environment variable " ++ JsString.dquote ++ key e ++ JsString.dquote
    ++ ": " ++ JsString.join "; " (errors e).
End EnvError.

(** [class EnvValidationError extends Error] *)
Module EnvValidationError.
Record t : Type := mk { errors : list EnvError.t }.

Definition message (e : t) : string :=
  "Environment validation failed:" ++ JsString.newline
    ++ JsString.join JsString.newline (map EnvError.message (errors e)).
End EnvValidationError.

(** What a [throw] carries: an instance of one of the two classes above,
    or any other value. *)
Inductive thrown : Type :=
| ThrownEnvError (e : EnvError.t)
| ThrownEnvValidationError (e : EnvValidationError.t)
| ThrownOther (v : jsvalue).

Inductive result (A : Type) : Type :=
| Ok (a : A)
| Throw (e : thrown).
Arguments Ok {A} a.
Arguments Throw {A} e.

Definition result_map {A B : Type} (f : A -> B) (r : result A) : result B :=
  match r with
  | Ok a => Ok (f a)
  | Throw e => Throw e
  end.

(** Calls of the functions the caller supplies in a config. *)
Inductive event : Type :=
| CallTransform (arg : jsvalue)
| CallValidate (arg : jsvalue).

(** A computation: the calls it made, in order, and how it ended. *)
Definition M (A : Type) : Type := list event * result A.

Definition ret {A : Type} (a : A) : M A := ([], Ok a).
Definition throw {A : Type} (e : thrown) : M A := ([], Throw e).
Definition lift {A : Type} (r : result A) : M A := ([], r).
Definition call {A : Type} (ev : event) (r : result A) : M A := ([ev], r).

Definition bind {A B : Type} (m : M A) (f : A -> M B) : M B :=
  match m with
  | (log, Ok a) => let '(log', r) := f a in (app log log', r)
  | (log, Throw e) => (log, Throw e)
  end.

(** [try { m } catch (err) { handler err }] *)
Definition try_catch {A : Type} (m : M A) (handler : thrown -> M A) : M A :=
  match m with
  | (log, Throw e) => let '(log', r) := handler e in (app log log', r)
  | (log, Ok a) => (log, Ok a)
  end.

Notation "x <- m ;; k" := (bind m (fun x => k))
  (at level 100, m at next level, right associativity).
Notation "m ;;; k" := (bind m (fun _ => k))
  (at level 100, right associativity).

Definition log_of {A : Type} (m : M A) : list event := fst m.
Definition outcome {A : Type} (m : M A) : result A := snd m.

(** ** Types of the program *)

Inductive EnvType : Type :=
| TString | TNumber | TBoolean | TJson | TUrl | TPort | TEnum.

Definition EnvType_name (t : EnvType) : string :=
  match t with
  | TString => "string"
  | TNumber => "number"
  | TBoolean => "boolean"
  | TJson => "json"
  | TUrl => "url"
  | TPort => "port"
  | TEnum => "enum"
  end.

(** [interface EnvVarConfig]. A field that is left out reads as
    [undefined]: [VUndefined] for [default], [None] for the others. *)
Module EnvVarConfig.
Record t : Type := mk {
  key : string;
  type : option EnvType;
  default : jsvalue;
  required : option bool;
  validate : option (jsvalue -> result jsvalue);
  transform : option (jsvalue -> result jsvalue);
  choices : option (list jsvalue);
  description : option string
}.
End EnvVarConfig.

(** The object literal [{ key, type }]. *)
Definition key_type (key : string) (type : EnvType) : EnvVarConfig.t :=
  EnvVarConfig.mk key (Some type) VUndefined None None None None None.

(** A value of [EnvSchema]: a full config or a string. *)
Inductive schemaEntry : Type :=
| EntryConfig (c : EnvVarConfig.t)
| EntryString (s : string).

(** [EnvSchema], as the sequence [Object.entries] yields. *)
Abbreviation EnvSchema := (list (string * schemaEntry)).

(** An object used as a source, [Record<string, string | undefined>]:
    what reading each key yields, through own properties and inherited
    members alike. A key outside the map reads as [undefined]; on a
    plain object a key such as toString reads as the member inherited
    from [Object.prototype]. *)
Abbreviation Source := (gmap string jsvalue).

(** [src[key]] *)
Definition Source_read (src : Source) (key : string) : jsvalue :=
  match src !! key with
  | Some v => v
  | None => VUndefined
  end.

(** What the program takes from its host: the global [process.env], the
    built-ins [JSON.parse] and [new URL], and the conversions of numbers
    and objects: to a string, to a number, and what
    [raw.toLowerCase().trim()] makes of an object [raw] (a TypeError
    when it has no such method). *)
Class Host : Type := {
  process_env : Source;
  JSON_parse : string -> result jsvalue;
  URL_new : string -> result unit;
  Number_toString : JsNumber.number -> string;
  Object_toString : N -> string;
  Object_toNumber : N -> JsNumber.number;
  Object_lower_trim : N -> result string
}.

(** ** The program *)

Section Program.
Context {host : Host}.

(** ToString, as [Array.prototype.join] applies it to an element. *)
Definition ToString (v : jsvalue) : string :=
  match v with
  | VUndefined => "undefined"
  | VNull => "null"
  | VBool true => "true"
  | VBool false => "false"
  | VNum n => Number_toString n
  | VStr s => s
  | VObj r => Object_toString r
  end.

(** [Array.prototype.join]: [undefined] and [null] give the empty string. *)
Definition join (l : list jsvalue) (sep : string) : string :=
  JsString.join sep
    (map (fun v => match v with
                   | VUndefined | VNull => EmptyString
                   | _ => ToString v
                   end) l).

(** SameValueZero *)
Definition sameValueZero (a b : jsvalue) : bool :=
  match a, b with
  | VUndefined, VUndefined => true
  | VNull, VNull => true
  | VBool x, VBool y => Bool.eqb x y
  | VNum x, VNum y => JsNumber.sameValueZero x y
  | VStr x, VStr y => JsString.eqb x y
  | VObj x, VObj y => N.eqb x y
  | _, _ => false
  end.

(** [Array.prototype.includes] *)
Definition includes (l : list jsvalue) (v : jsvalue) : bool :=
  existsb (fun x => sameValueZero x v) l.

Definition includes_string (l : list string) (s : string) : bool :=
  existsb (fun x => JsString.eqb x s) l.

(** *** Parsers *)

Definition EnvError_of (key : string) (errors : list string) : thrown :=
  ThrownEnvError (EnvError.mk key errors).

Definition parseString (raw : string) : string := raw.

Definition parseNumber (raw : string) (key : string) : result JsNumber.number :=
  let num := JsNumber.Number raw in
  if JsNumber.isNaN num then
    Throw (EnvError_of key
      ["Expected a number, got " ++ JsString.dquote ++ raw ++ JsString.dquote])
  else Ok num.

Definition parseBoolean (raw : string) (key : string) : result bool :=
  let lower := JsString.trim (JsString.toLowerCase raw) in
  if includes_string ["true"; "1"; "yes"; "on"] lower then Ok true
  else if includes_string ["false"; "0"; "no"; "off"] lower then Ok false
  else
    Throw (EnvError_of key
      ["Expected a boolean, got " ++ JsString.dquote ++ raw ++ JsString.dquote
         ++ ". Use true/false, 1/0, yes/no, or on/off"]).

Definition parseJson (raw : string) (key : string) : result jsvalue :=
  match JSON_parse raw with
  | Ok v => Ok v
  | Throw _ =>
      Throw (EnvError_of key
        ["Expected valid JSON, got " ++ JsString.dquote ++ raw ++ JsString.dquote])
  end.

Definition parseUrl (raw : string) (key : string) : result string :=
  match URL_new raw with
  | Ok _ => Ok raw
  | Throw _ =>
      Throw (EnvError_of key
        ["Expected a valid URL, got " ++ JsString.dquote ++ raw ++ JsString.dquote])
  end.

Definition parsePort (raw : string) (key : string) : result JsNumber.number :=
  let num := JsNumber.Number raw in
  if JsNumber.isNaN num
     || negb (JsNumber.isInteger num)
     || JsNumber.lt num (JsNumber.ofZ 0)
     || JsNumber.gt num (JsNumber.ofZ 65535)
  then
    Throw (EnvError_of key
      ["Expected a port (0-65535), got " ++ JsString.dquote ++ raw ++ JsString.dquote])
  else Ok num.

(** *** Core *)

Definition validTypes : list EnvType :=
  [TString; TNumber; TBoolean; TJson; TUrl; TPort; TEnum].

Definition normalizeConfig (input : schemaEntry) (key : string) : EnvVarConfig.t :=
  match input with
  | EntryString s =>
      match find (fun t => JsString.eqb (EnvType_name t) s) validTypes with
      | Some t => key_type key t
      | None => key_type key TString
      end
  | EntryConfig c =>
      EnvVarConfig.mk
        (if JsString.eqb (EnvVarConfig.key c) EmptyString then key
         else EnvVarConfig.key c)
        (EnvVarConfig.type c) (EnvVarConfig.default c) (EnvVarConfig.required c)
        (EnvVarConfig.validate c) (EnvVarConfig.transform c)
        (EnvVarConfig.choices c) (EnvVarConfig.description c)
  end.

Definition parseValue (raw : string) (config : EnvVarConfig.t) : result jsvalue :=
  let type := match EnvVarConfig.type config with Some t => t | None => TString end in
  let key := EnvVarConfig.key config in
  match type with
  | TString => Ok (VStr (parseString raw))
  | TNumber => result_map VNum (parseNumber raw key)
  | TBoolean => result_map VBool (parseBoolean raw key)
  | TJson => parseJson raw key
  | TUrl => result_map VStr (parseUrl raw key)
  | TPort => result_map VNum (parsePort raw key)
  | TEnum => Ok (VStr (parseString raw))
  end.

(** *** Raw values of any type

    [raw] is typed [string], but [src[key]] yields whatever the object
    holds or inherits for the key. The parsers on such a value: *)

(** A TypeError; only that it is no [EnvError] matters. *)
Definition TypeError : thrown := ThrownOther (VStr "TypeError").

(** ToNumber, as [Number(raw)] applies it. *)
Definition ToNumber (raw : jsvalue) : JsNumber.number :=
  match raw with
  | VUndefined => JsNumber.NaN
  | VNull => S754_zero false
  | VBool true => JsNumber.ofZ 1
  | VBool false => S754_zero false
  | VNum n => n
  | VStr s => JsNumber.Number s
  | VObj r => Object_toNumber r
  end.

(** [raw.toLowerCase().trim()] *)
Definition lower_trim (raw : jsvalue) : result string :=
  match raw with
  | VStr s => Ok (JsString.trim (JsString.toLowerCase s))
  | VObj r => Object_lower_trim r
  | _ => Throw TypeError
  end.

Definition parseNumber_any (raw : jsvalue) (key : string) : result JsNumber.number :=
  let num := ToNumber raw in
  if JsNumber.isNaN num then
    Throw (EnvError_of key
      ["Expected a number, got " ++ JsString.dquote ++ ToString raw ++ JsString.dquote])
  else Ok num.

Definition parseBoolean_any (raw : jsvalue) (key : string) : result bool :=
  match lower_trim raw with
  | Throw e => Throw e
  | Ok lower =>
      if includes_string ["true"; "1"; "yes"; "on"] lower then Ok true
      else if includes_string ["false"; "0"; "no"; "off"] lower then Ok false
      else
        Throw (EnvError_of key
          ["Expected a boolean, got " ++ JsString.dquote ++ ToString raw
             ++ JsString.dquote ++ ". Use true/false, 1/0, yes/no, or on/off"])
  end.

Definition parseJson_any (raw : jsvalue) (key : string) : result jsvalue :=
  match JSON_parse (ToString raw) with
  | Ok v => Ok v
  | Throw _ =>
      Throw (EnvError_of key
        ["Expected valid JSON, got " ++ JsString.dquote ++ ToString raw
           ++ JsString.dquote])
  end.

Definition parseUrl_any (raw : jsvalue) (key : string) : result jsvalue :=
  match URL_new (ToString raw) with
  | Ok _ => Ok raw
  | Throw _ =>
      Throw (EnvError_of key
        ["Expected a valid URL, got " ++ JsString.dquote ++ ToString raw
           ++ JsString.dquote])
  end.

Definition parsePort_any (raw : jsvalue) (key : string) : result JsNumber.number :=
  let num := ToNumber raw in
  if JsNumber.isNaN num
     || negb (JsNumber.isInteger num)
     || JsNumber.lt num (JsNumber.ofZ 0)
     || JsNumber.gt num (JsNumber.ofZ 65535)
  then
    Throw (EnvError_of key
      ["Expected a port (0-65535), got " ++ JsString.dquote ++ ToString raw
         ++ JsString.dquote])
  else Ok num.

(** [parseValue] on whatever [src[key]] yielded. *)
Definition parseValue_any (raw : jsvalue) (config : EnvVarConfig.t) : result jsvalue :=
  let type := match EnvVarConfig.type config with Some t => t | None => TString end in
  let key := EnvVarConfig.key config in
  match type with
  | TString => Ok raw
  | TNumber => result_map VNum (parseNumber_any raw key)
  | TBoolean => result_map VBool (parseBoolean_any raw key)
  | TJson => parseJson_any raw key
  | TUrl => parseUrl_any raw key
  | TPort => result_map VNum (parsePort_any raw key)
  | TEnum => Ok raw
  end.

(** [raw === undefined || raw === ""] *)
Definition not_set (raw : jsvalue) : bool :=
  match raw with
  | VUndefined => true
  | VStr s => JsString.eqb s EmptyString
  | _ => false
  end.

(** [result[name] = value] on the plain object [result]: the name
    __proto__ reaches the setter of [Object.prototype] and adds no own
    property. *)
Definition set_property (name : string) (value : jsvalue)
    (result : gmap string jsvalue) : gmap string jsvalue :=
  if JsString.eqb name "__proto__" then result else <[name := value]> result.

Definition is_undefined (v : jsvalue) : bool :=
  match v with VUndefined => true | _ => false end.

(** [env], lines 164-172: the variable is not set. *)
Definition env_not_set (config : EnvVarConfig.t) : M jsvalue :=
  if negb (is_undefined (EnvVarConfig.default config)) then
    ret (EnvVarConfig.default config)
  else
    match EnvVarConfig.required config with
    | Some false => ret VUndefined
    | _ => throw (EnvError_of (EnvVarConfig.key config) ["Required but not set"])
    end.

(** [env], lines 176-183: enum validation. *)
Definition env_enum (config : EnvVarConfig.t) (raw : string) (value : jsvalue) : M unit :=
  match EnvVarConfig.type config, EnvVarConfig.choices config with
  | Some TEnum, Some choices =>
      if negb (includes choices value) then
        throw (EnvError_of (EnvVarConfig.key config)
          ["Expected one of [" ++ join choices ", " ++ "], got "
             ++ JsString.dquote ++ raw ++ JsString.dquote])
      else ret tt
  | _, _ => ret tt
  end.

(** [env], lines 185-188: custom transform. *)
Definition env_transform (config : EnvVarConfig.t) (value : jsvalue) : M jsvalue :=
  match EnvVarConfig.transform config with
  | Some f => call (CallTransform value) (f value)
  | None => ret value
  end.

(** [env], lines 190-199: custom validation. *)
Definition env_validate (config : EnvVarConfig.t) (value : jsvalue) : M unit :=
  match EnvVarConfig.validate config with
  | Some f =>
      result <- call (CallValidate value) (f value) ;;
      match result with
      | VBool false =>
          throw (EnvError_of (EnvVarConfig.key config) ["Failed custom validation"])
      | VStr s => throw (EnvError_of (EnvVarConfig.key config) [s])
      | _ => ret tt
      end
  | None => ret tt
  end.

(** Parse a single environment variable. *)
Definition env (config : EnvVarConfig.t) (source : option Source) : M jsvalue :=
  let src := match source with Some s => s | None => process_env end in
  let raw := Source_read src (EnvVarConfig.key config) in
  if not_set raw then env_not_set config
  else
    value <- lift (parseValue_any raw config) ;;
    env_enum config (ToString raw) value ;;;
    value <- env_transform config value ;;
    env_validate config value ;;;
    ret value.

(** The loop of [envSchema] over [Object.entries(schema)], with the
    two local variables [result] (its own properties) and [errors]. *)
Fixpoint envSchema_loop (entries : EnvSchema) (source : option Source)
    (result : gmap string jsvalue) (errors : list EnvError.t)
    : M (gmap string jsvalue * list EnvError.t) :=
  match entries with
  | [] => ret (result, errors)
  | (name, rawConfig) :: rest =>
      let config := normalizeConfig rawConfig name in
      st <- try_catch
              (v <- env config source ;; ret (set_property name v result, errors))
              (fun err =>
                 match err with
                 | ThrownEnvError e => ret (result, app errors [e])
                 | _ => throw err
                 end) ;;
      envSchema_loop rest source (fst st) (snd st)
  end.

(** Parse multiple environment variables from a schema. *)
Definition envSchema (schema : EnvSchema) (source : option Source)
    : M (gmap string jsvalue) :=
  st <- envSchema_loop schema source ∅ [] ;;
  match snd st with
  | [] => ret (fst st)
  | errors => throw (ThrownEnvValidationError (EnvValidationError.mk errors))
  end.

End Program.

(** ** Quick helpers *)

Section Helpers.
Context {host : Host}.

(** An optional argument: [undefined] when it is left out. *)
Definition optional {A : Type} (inj : A -> jsvalue) (x : option A) : jsvalue :=
  match x with
  | Some a => inj a
  | None => VUndefined
  end.

(** The object literal [{ key, type, default: defaultValue }]. *)
Definition key_type_default (key : string) (type : EnvType) (defaultValue : jsvalue)
    : EnvVarConfig.t :=
  EnvVarConfig.mk key (Some type) defaultValue None None None None None.

(** Get a required string env var *)
Definition envString (key : string) (defaultValue : option string) : M jsvalue :=
  env (key_type_default key TString (optional VStr defaultValue)) None.

(** Get a required number env var *)
Definition envNumber (key : string) (defaultValue : option JsNumber.number) : M jsvalue :=
  env (key_type_default key TNumber (optional VNum defaultValue)) None.

(** Get a required boolean env var *)
Definition envBool (key : string) (defaultValue : option bool) : M jsvalue :=
  env (key_type_default key TBoolean (optional VBool defaultValue)) None.

(** Get a required port env var (0-65535) *)
Definition envPort (key : string) (defaultValue : option JsNumber.number) : M jsvalue :=
  env (key_type_default key TPort (optional VNum defaultValue)) None.

(** Get a required URL env var *)
Definition envUrl (key : string) (defaultValue : option string) : M jsvalue :=
  env (key_type_default key TUrl (optional VStr defaultValue)) None.

(** Get a required JSON env var *)
Definition envJson (key : string) (defaultValue : jsvalue) : M jsvalue :=
  env (key_type_default key TJson defaultValue) None.

(** Get a required enum env var *)
Definition envEnum (key : string) (choices : list string) (defaultValue : option string)
    : M jsvalue :=
  env (EnvVarConfig.mk key (Some TEnum) (optional VStr defaultValue) None None None
         (Some (map VStr choices)) None)
      None.

End Helpers.

(** ** Auxiliary notions used in the statements *)

(** The string reading a key yields, when it yields a string. *)
Definition Source_get (src : Source) (key : string) : option string :=
  match Source_read src key with
  | VStr s => Some s
  | _ => None
  end.

(** The raw string of a variable that is set: a string other than the
    empty one. *)
Definition present (raw : option string) : option string :=
  match raw with
  | None => None
  | Some s => if JsString.eqb s EmptyString then None else Some s
  end.

(** The enum check of [env] rejects the parsed value. *)
Definition enum_rejects {host : Host} (config : EnvVarConfig.t) (v : jsvalue) : bool :=
  match EnvVarConfig.type config, EnvVarConfig.choices config with
  | Some TEnum, Some choices => negb (includes choices v)
  | _, _ => false
  end.

(** The source [env] reads: the given one, else [process.env]. *)
Definition source_or_env {host : Host} (source : option Source) : Source :=
  match source with Some s => s | None => process_env end.

(** The value [validate] is called on: the parsed value, or what
    [transform] made of it. *)
Definition transformed (config : EnvVarConfig.t) (v0 : jsvalue) : result jsvalue :=
  match EnvVarConfig.transform config with
  | Some f => f v0
  | None => Ok v0
  end.

(** How one entry of a schema resolves on its own. *)
Definition field_run {host : Host} (source : option Source) (entry : string * schemaEntry)
    : M jsvalue :=
  env (normalizeConfig (snd entry) (fst entry)) source.

(** The [EnvError] a field resolution threw, if it threw one. *)
Definition field_error (m : M jsvalue) : option EnvError.t :=
  match outcome m with
  | Throw (ThrownEnvError e) => Some e
  | _ => None
  end.

(** The result entry of a field that resolved. *)
Definition field_value {host : Host} (source : option Source) (entry : string * schemaEntry)
    : option (string * jsvalue) :=
  match outcome (field_run source entry) with
  | Ok v => Some (fst entry, v)
  | Throw _ => None
  end.

(** A field resolution ended by throwing something that is not an
    [EnvError]. *)
Definition is_fault (m : M jsvalue) : bool :=
  match outcome m with
  | Throw (ThrownEnvError _) => false
  | Throw _ => true
  | Ok _ => false
  end.

(** The type a bare type name denotes, in the words of the
    specification. *)
Definition type_of_name (s : string) : option EnvType :=
  if bool_decide (s = "string") then Some TString
  else if bool_decide (s = "number") then Some TNumber
  else if bool_decide (s = "boolean") then Some TBoolean
  else if bool_decide (s = "json") then Some TJson
  else if bool_decide (s = "url") then Some TUrl
  else if bool_decide (s = "port") then Some TPort
  else if bool_decide (s = "enum") then Some TEnum
  else None.

(** The explicit config a shorthand stands for, in the words of the
    specification: [{ key: name, kind: that type }] for a type name,
    [{ key: name, kind: string }] for any other string. *)
Definition explicit_config (name s : string) : EnvVarConfig.t :=
  match type_of_name s with
  | Some t => key_type name t
  | None => key_type name TString
  end.

(** The result object after the assignments [result[name] = v]. *)
Definition assign_all (result : gmap string jsvalue) (l : list (string * jsvalue))
    : gmap string jsvalue :=
  foldl (fun r p => set_property (fst p) (snd p) r) result l.

(** A decimal digit, and strings of decimal digits. *)
Definition isDecimalDigit (c : ascii) : bool :=
  (48 <=? JsString.code c) && (JsString.code c <=? 57).

Fixpoint allDecimalDigits (s : string) : bool :=
  match s with
  | EmptyString => true
  | String c s' => isDecimalDigit c && allDecimalDigits s'
  end.

Definition isDecimalDigits (s : string) : bool :=
  match s with
  | EmptyString => false
  | _ => allDecimalDigits s
  end.

(** The integer a string of decimal digits denotes, after [acc]. *)
Fixpoint decimalValue (acc : Z) (s : string) : Z :=
  match s with
  | EmptyString => acc
  | String c s' => decimalValue (acc * 10 + (JsString.code c - 48)) s'
  end.

(** A plain decimal numeral: an optional minus sign, integer digits and
    an optional fraction. *)
Definition plainDecimal (neg : bool) (int : string) (frac : option string) : string :=
  (if neg then "-" else EmptyString)
    ++ int ++ match frac with Some f => "." ++ f | None => EmptyString end.

(** The number a plain decimal numeral denotes: the binary64 value
    nearest to its mathematical value. *)
Definition plainDecimalValue (neg : bool) (int : string) (frac : option string)
    : JsNumber.number :=
  let f := match frac with Some f => f | None => EmptyString end in
  JsNumber.ofDecimal neg (Z.to_N (decimalValue 0 (int ++ f)))
    (- Z.of_nat (String.length f)).

(** A string without white space. *)
Fixpoint noWhiteSpace (s : string) : bool :=
  match s with
  | EmptyString => true
  | String c s' => negb (JsString.isWhiteSpace c) && noWhiteSpace s'
  end.

(** The pair of a signed mantissa and an exponent denotes the integer
    [z]: [m * 2 ^ e = z]. *)
Definition denotes (m e z : Z) : Prop :=
  (0 <= e /\ z = m * 2 ^ e) \/ (e < 0 /\ m = z * 2 ^ (- e)).

(** The config with other [default] and [required] fields. *)
Definition with_default_required (config : EnvVarConfig.t) (d : jsvalue)
    (r : option bool) : EnvVarConfig.t :=
  EnvVarConfig.mk (EnvVarConfig.key config) (EnvVarConfig.type config) d r
    (EnvVarConfig.validate config) (EnvVarConfig.transform config)
    (EnvVarConfig.choices config) (EnvVarConfig.description config).

(** What [process.env] holds for a key, when it is set and not empty. *)
Definition process_env_value {host : Host} (key : string) : option string :=
  present (Source_get process_env key).

(** The value has the shape the type of the config promises for the raw
    string it was parsed from. *)
Definition well_typed {host : Host} (config : EnvVarConfig.t) (raw : string)
    (v : jsvalue) : Prop :=
  match EnvVarConfig.type config with
  | None | Some TString | Some TUrl => v = VStr raw
  | Some TEnum =>
      v = VStr raw
      /\ forall choices, EnvVarConfig.choices config = Some choices -> v ∈ choices
  | Some TNumber =>
      exists n, v = VNum n /\ n = JsNumber.Number raw /\ JsNumber.isNaN n = false
  | Some TBoolean => exists b, v = VBool b
  | Some TJson => JSON_parse raw = Ok v
  | Some TPort =>
      exists n z, v = VNum n /\ JsNumber.toZ n = Some z /\ 0 <= z <= 65535
  end.

(** A string made of white space only. *)
Fixpoint allWhiteSpace (s : string) : bool :=
  match s with
  | EmptyString => true
  | String c s' => JsString.isWhiteSpace c && allWhiteSpace s'
  end.

(** The calls [env] can make: [transform] at most once, then [validate]
    at most once. *)
Definition calls_in_order (log : list event) : Prop :=
  log = []
  \/ (exists v, log = [CallTransform v])
  \/ (exists v, log = [CallValidate v])
  \/ (exists v v', log = [CallTransform v; CallValidate v']).

(** Reading a key yields the same value in two sources. *)
Definition same_at (src1 src2 : Source) (key : string) : Prop :=
  Source_read src1 key = Source_read src2 key.

(** What reading a key yielded is a string or [undefined], as the
    type [Record<string, string | undefined>] of a source says. *)
Definition string_or_undefined (raw : jsvalue) : bool :=
  match raw with
  | VUndefined | VStr _ => true
  | _ => false
  end.

(** The members every plain object inherits from [Object.prototype]:
    functions, and the prototype itself under __proto__. *)
Definition Object_prototype : gmap string jsvalue :=
  list_to_map
    [("__proto__", VObj 0); ("constructor", VObj 1); ("toString", VObj 2);
     ("valueOf", VObj 3); ("hasOwnProperty", VObj 4); ("isPrototypeOf", VObj 5);
     ("propertyIsEnumerable", VObj 6); ("toLocaleString", VObj 7);
     ("__defineGetter__", VObj 8); ("__defineSetter__", VObj 9);
     ("__lookupGetter__", VObj 10); ("__lookupSetter__", VObj 11)].

(** The plain object with the given own properties: a key that is not
    an own property reads as the inherited member, if there is one. *)
Definition plain_object (own : gmap string (option string)) : Source :=
  (optional VStr <$> own) ∪ Object_prototype.

(** An array index: the canonical decimal numeral of an integer from 0
    to 2 ^ 32 - 2. *)
Definition array_index (name : string) : option Z :=
  if isDecimalDigits name
     && match name with
        | String "0"%char (String _ _) => false
        | _ => true
        end
     && (decimalValue 0 name <=? 4294967294)
  then Some (decimalValue 0 name) else None.

Fixpoint insert_by_index (x : Z * (string * schemaEntry))
    (l : list (Z * (string * schemaEntry))) : list (Z * (string * schemaEntry)) :=
  match l with
  | [] => [x]
  | y :: l' => if fst x <? fst y then x :: l else y :: insert_by_index x l'
  end.

(** [Object.entries] on an object whose own properties were created in
    the given order under distinct names: the array indices in
    ascending order, then the other names in creation order. *)
Definition Object_entries (declared : list (string * schemaEntry)) : EnvSchema :=
  app
    (map snd
       (foldr insert_by_index []
          (omap (fun entry =>
                   match array_index (fst entry) with
                   | Some i => Some (i, entry)
                   | None => None
                   end) declared)))
    (List.filter (fun entry =>
                    match array_index (fst entry) with
                    | Some _ => false
                    | None => true
                    end) declared).

(** The names of a schema under which [result[name] = value] adds an
    own property. *)
Definition own_names (schema : EnvSchema) : list string :=
  List.filter (fun name => negb (JsString.eqb name "__proto__")) schema.*1.

(** The entry is a shorthand string. *)
Definition is_shorthand (entry : string * schemaEntry) : bool :=
  match snd entry with
  | EntryString _ => true
  | EntryConfig _ => false
  end.

(** ** Example inputs *)

(** A host with an empty [process.env], whose [JSON.parse] and [new URL]
    reject every string, and whose objects have no [toLowerCase]. *)
Definition bare_host : Host := {|
  process_env := plain_object ∅;
  JSON_parse := fun _ => Throw (ThrownOther (VStr "SyntaxError"));
  URL_new := fun _ => Throw (ThrownOther (VStr "TypeError"));
  Number_toString := fun _ => "0";
  Object_toString := fun _ => "[object Object]";
  Object_toNumber := fun _ => JsNumber.NaN;
  Object_lower_trim := fun _ => Throw (ThrownOther (VStr "TypeError"))
|}.

(** The source [{ [key]: raw }]. *)
Definition source_of (key raw : string) : option Source :=
  Some (plain_object {[ key := Some raw ]}).

(** The source [{}]. *)
Definition empty_source : option Source := Some (plain_object ∅).

(** [(v) => Math.abs(v)] *)
Definition abs_transform (v : jsvalue) : result jsvalue :=
  match v with
  | VNum n => Ok (VNum (JsNumber.abs n))
  | _ => Ok v
  end.

(** [(v) => v > 0] *)
Definition positive_validate (v : jsvalue) : result jsvalue :=
  match v with
  | VNum n => Ok (VBool (JsNumber.gt n (JsNumber.ofZ 0)))
  | _ => Ok (VBool false)
  end.

(** [(v) => v > 0 || "Must be positive"] *)
Definition positive_or_message (v : jsvalue) : result jsvalue :=
  match v with
  | VNum n =>
      if JsNumber.gt n (JsNumber.ofZ 0) then Ok (VBool true)
      else Ok (VStr "Must be positive")
  | _ => Ok (VStr "Must be positive")
  end.

(** [{ key: "N", type: "number", transform: abs, validate: positive }] *)
Definition config_abs_positive : EnvVarConfig.t :=
  EnvVarConfig.mk "N" (Some TNumber) VUndefined None
    (Some positive_validate) (Some abs_transform) None None.

(** [{ key: "N", type: "number", validate: positive_or_message }] *)
Definition config_must_be_positive : EnvVarConfig.t :=
  EnvVarConfig.mk "N" (Some TNumber) VUndefined None
    (Some positive_or_message) None None None.

(** [{ key: "K", validate: () => "" }]: the validator returns the empty
    string. *)
Definition config_empty_message : EnvVarConfig.t :=
  EnvVarConfig.mk "K" None VUndefined None
    (Some (fun _ => Ok (VStr EmptyString))) None None None.

(** [{ key: "PORT", type: "port", default: 3000 }] *)
Definition config_port_default : EnvVarConfig.t :=
  EnvVarConfig.mk "PORT" (Some TPort) (VNum (JsNumber.ofZ 3000)) None None None None None.

(** [{ key: "E", type: "enum", choices: ["a", "b", "c"] }] *)
Definition config_enum_abc : EnvVarConfig.t :=
  EnvVarConfig.mk "E" (Some TEnum) VUndefined None None None
    (Some [VStr "a"; VStr "b"; VStr "c"]) None.

(** [{ key: "E", type: "enum", choices: ["a", "b", "c"],
       validate: () => false }] *)
Definition config_enum_rejecting : EnvVarConfig.t :=
  EnvVarConfig.mk "E" (Some TEnum) VUndefined None
    (Some (fun _ => Ok (VBool false))) None
    (Some [VStr "a"; VStr "b"; VStr "c"]) None.

(** [{ key: "REQUIRED" }] *)
Definition config_required : EnvVarConfig.t :=
  EnvVarConfig.mk "REQUIRED" None VUndefined None None None None None.

(** [{ key: "toString" }] *)
Definition config_toString : EnvVarConfig.t :=
  EnvVarConfig.mk "toString" None VUndefined None None None None None.

(** [{ key: "toString", required: false, transform: (v) => v,
       validate: () => true }] *)
Definition config_toString_optional : EnvVarConfig.t :=
  EnvVarConfig.mk "toString" None VUndefined (Some false)
    (Some (fun _ => Ok (VBool true))) (Some (fun v => Ok v)) None None.

(** [{ key: "S", transform: () => { throw "boom" } }] *)
Definition config_transform_throws : EnvVarConfig.t :=
  EnvVarConfig.mk "S" None VUndefined None None
    (Some (fun _ => Throw (ThrownOther (VStr "boom")))) None None.

(** [{ A: { key: "A", type: "number" }, B: { key: "B", type: "url" },
       C: { key: "C", type: "port" } }] *)
Definition schema_three_required : EnvSchema :=
  [("A", EntryConfig (key_type "A" TNumber));
   ("B", EntryConfig (key_type "B" TUrl));
   ("C", EntryConfig (key_type "C" TPort))].

(** The literal [{ B: "number", 1: "number", A: "number" }], in the
    order it is written. *)
Definition schema_B_1_A : list (string * schemaEntry) :=
  [("B", EntryString "number"); ("1", EntryString "number");
   ("A", EntryString "number")].

(** A host whose [process.env] holds [PORT=8080] and [NODE_ENV=prod]. *)
Definition host_with_env : Host := {|
  process_env := plain_object {[ "PORT" := Some "8080"; "NODE_ENV" := Some "prod" ]};
  JSON_parse := fun _ => Throw (ThrownOther (VStr "SyntaxError"));
  URL_new := fun _ => Throw (ThrownOther (VStr "TypeError"));
  Number_toString := fun _ => "0";
  Object_toString := fun _ => "[object Object]";
  Object_toNumber := fun _ => JsNumber.NaN;
  Object_lower_trim := fun _ => Throw (ThrownOther (VStr "TypeError"))
|}.

(** [{ FOO: "string", BAR: "number" }] *)
Definition schema_shorthand : EnvSchema :=
  [("FOO", EntryString "string"); ("BAR", EntryString "number")].

(** ** Properties of the field resolver [env] *)

(** Unfold the operations of [M] and compute. *)
Ltac run_M :=
  unfold bind, call, ret, throw, lift, try_catch, log_of, outcome in *; cbn in *.

Section EnvProperties.
Context {host : Host}.

Implicit Types (config : EnvVarConfig.t) (source : option Source).

Lemma bind_lift_Ok {A B : Type} (a : A) (k : A -> M B) :
  bind (lift (Ok a)) k = k a.
Proof. unfold bind, lift. destruct (k a). reflexivity. Qed.

Lemma present_Some (src : Source) key raw :
  present (Source_get src key) = Some raw ->
  Source_read src key = VStr raw /\ not_set (VStr raw) = false.
Proof.
  unfold present, Source_get, not_set.
  destruct (Source_read src key) as [| | | |s|]; try discriminate.
  destruct (JsString.eqb s EmptyString) eqn:Hs; [discriminate|].
  intros [= <-]. split; [reflexivity|assumption].
Qed.

(** On a string, the parsers are the ones the source declares. *)
Lemma parseValue_any_VStr raw config :
  parseValue_any (VStr raw) config = parseValue raw config.
Proof.
  unfold parseValue_any, parseValue, parseNumber_any, parseNumber, parseBoolean_any,
    parseBoolean, parseJson_any, parseJson, parseUrl_any, parseUrl, parsePort_any,
    parsePort, parseString.
  destruct (EnvVarConfig.type config) as [[]|]; cbn [ToNumber ToString lower_trim];
    try reflexivity.
  destruct (URL_new raw); reflexivity.
Qed.

Lemma Source_read_source_of (key raw : string) :
  Source_read (plain_object {[ key := Some raw ]}) key = VStr raw.
Proof.
  unfold Source_read, plain_object.
  rewrite (lookup_union_Some_l _ _ _ (VStr raw)); [reflexivity|].
  rewrite map_fmap_singleton. apply lookup_singleton_eq.
Qed.

Lemma env_set config source :
  not_set (Source_read (source_or_env source) (EnvVarConfig.key config)) = false ->
  env config source =
    (value <- lift (parseValue_any
                      (Source_read (source_or_env source) (EnvVarConfig.key config))
                      config) ;;
     env_enum config
       (ToString (Source_read (source_or_env source) (EnvVarConfig.key config)))
       value ;;;
     value <- env_transform config value ;;
     env_validate config value ;;;
     ret value).
Proof. unfold env, source_or_env. intros ->. reflexivity. Qed.

Lemma env_unset config source :
  not_set (Source_read (source_or_env source) (EnvVarConfig.key config)) = true ->
  env config source = env_not_set config.
Proof. unfold env, source_or_env. intros ->. reflexivity. Qed.

Lemma env_present config source raw :
  present (Source_get (source_or_env source) (EnvVarConfig.key config)) = Some raw ->
  env config source =
    (value <- lift (parseValue raw config) ;;
     env_enum config raw value ;;;
     value <- env_transform config value ;;
     env_validate config value ;;;
     ret value).
Proof.
  intros Hraw. apply present_Some in Hraw as [Hread Hset].
  rewrite env_set by (rewrite Hread; exact Hset).
  rewrite Hread, parseValue_any_VStr. reflexivity.
Qed.

(** A key that reads as a string or as [undefined] is set to a string
    or is not set. *)
Lemma string_or_undefined_cases (src : Source) key :
  string_or_undefined (Source_read src key) = true ->
  (exists raw, present (Source_get src key) = Some raw)
  \/ not_set (Source_read src key) = true.
Proof.
  unfold present, Source_get, not_set, string_or_undefined.
  destruct (Source_read src key) as [| | | |s|]; try discriminate; intros _.
  - right. reflexivity.
  - destruct (JsString.eqb s EmptyString); eauto.
Qed.

Lemma env_not_set_log config : log_of (env_not_set config) = [].
Proof.
  unfold env_not_set.
  destruct (EnvVarConfig.default config); try reflexivity;
    destruct (EnvVarConfig.required config) as [[]|]; reflexivity.
Qed.

Lemma env_enum_cases config raw v :
  env_enum config raw v =
    if enum_rejects config v then
      throw (EnvError_of (EnvVarConfig.key config)
        ["Expected one of ["
           ++ join (default [] (EnvVarConfig.choices config)) ", "
           ++ "], got " ++ JsString.dquote ++ raw ++ JsString.dquote])
    else ret tt.
Proof.
  unfold env_enum, enum_rejects.
  destruct (EnvVarConfig.type config) as [[]|], (EnvVarConfig.choices config);
    try reflexivity.
Qed.

(** Every parser that throws, throws an [EnvError] for the key it was
    given, with one message. *)
Lemma parseValue_Throw raw config e :
  parseValue raw config = Throw e ->
  exists msg, e = EnvError_of (EnvVarConfig.key config) [msg].
Proof.
  unfold parseValue, parseNumber, parseBoolean, parseJson, parseUrl, parsePort,
    result_map.
  destruct (EnvVarConfig.type config) as [[]|]; try discriminate;
    repeat match goal with
           | |- context [if ?b then _ else _] => destruct b
           | |- context [match ?r with Ok _ => _ | Throw _ => _ end] => destruct r
           end;
    intros [= <-]; eauto.
Qed.

(** The calls of [env] once the variable is set, whatever reading the
    key yielded. *)
Lemma env_set_log config source f g :
  EnvVarConfig.transform config = Some f ->
  EnvVarConfig.validate config = Some g ->
  not_set (Source_read (source_or_env source) (EnvVarConfig.key config)) = false ->
  log_of (env config source) =
    match parseValue_any (Source_read (source_or_env source) (EnvVarConfig.key config))
            config with
    | Throw _ => []
    | Ok v =>
        if enum_rejects config v then []
        else CallTransform v ::
               match f v with
               | Ok v' => [CallValidate v']
               | Throw _ => []
               end
    end.
Proof.
  intros Hf Hg Hset. rewrite (env_set _ _ Hset).
  destruct (parseValue_any _ config) as [v|e]; [|reflexivity].
  rewrite bind_lift_Ok, env_enum_cases.
  destruct (enum_rejects config v); [reflexivity|].
  unfold env_transform, env_validate. rewrite Hf, Hg.
  destruct (f v) as [v'|e]; [|reflexivity].
  run_M. destruct (g v') as [[| |[]| | |]|e]; reflexivity.
Qed.

(** C2. The key toString is absent from the source [{}], the config
    has no default and leaves [required] out, and yet [env] does not
    throw "Required but not set": reading the key yields the function
    the object inherits, and [env] returns it. *)
Theorem env_returns_inherited_member :
  EnvVarConfig.default config_toString = VUndefined
  /\ EnvVarConfig.required config_toString = None
  /\ (∅ : gmap string (option string)) !! EnvVarConfig.key config_toString = None
  /\ Source_read (plain_object ∅) (EnvVarConfig.key config_toString) = VObj 2
  /\ env config_toString (Some (plain_object ∅)) = ([], Ok (VObj 2)).
Proof.
  split; [reflexivity|]. split; [reflexivity|]. split; [reflexivity|].
  split; [reflexivity|]. vm_compute. reflexivity.
Qed.

(** C3. The key toString is absent from the source [{}] and the config
    says [required: false], and yet [env] calls [transform], and then
    [validate]: on the function the object inherits. *)
Theorem env_transforms_inherited_member :
  EnvVarConfig.required config_toString_optional = Some false
  /\ (∅ : gmap string (option string)) !! EnvVarConfig.key config_toString_optional = None
  /\ Source_read (plain_object ∅) (EnvVarConfig.key config_toString_optional) = VObj 2
  /\ env config_toString_optional (Some (plain_object ∅))
     = ([CallTransform (VObj 2); CallValidate (VObj 2)], Ok (VObj 2)).
Proof.
  split; [reflexivity|]. split; [reflexivity|]. split; [reflexivity|].
  vm_compute. reflexivity.
Qed.

(** X16. When reading the key yields [undefined] or the empty string,
    [env] makes no call and: returns the default when it is not
    [undefined] (falsy defaults included), else returns [undefined]
    when [required] is [false], else throws
    [EnvError(key, ["Required but not set"])]. A source where the key
    reads as the empty string and one where it reads as [undefined]
    give the same outcome; on a plain object a key reads as
    [undefined] when it is no own property and names no inherited
    member. *)
Theorem env_not_present config source :
  let raw := Source_read (source_or_env source) (EnvVarConfig.key config) in
  (raw = VUndefined \/ raw = VStr EmptyString ->
   env config source =
     match EnvVarConfig.default config with
     | VUndefined =>
         match EnvVarConfig.required config with
         | Some false => ([], Ok VUndefined)
         | _ =>
             ([], Throw (ThrownEnvError
                    (EnvError.mk (EnvVarConfig.key config) ["Required but not set"])))
         end
     | d => ([], Ok d)
     end)
  /\ (forall src1 src2 : Source,
        Source_read src1 (EnvVarConfig.key config) = VStr EmptyString ->
        Source_read src2 (EnvVarConfig.key config) = VUndefined ->
        env config (Some src1) = env config (Some src2))
  /\ (forall own : gmap string (option string),
        own !! EnvVarConfig.key config = None ->
        Object_prototype !! EnvVarConfig.key config = None ->
        Source_read (plain_object own) (EnvVarConfig.key config) = VUndefined).
Proof.
  cbv zeta. split; [|split].
  - intros Hraw. rewrite env_unset by (destruct Hraw as [-> | ->]; reflexivity).
    unfold env_not_set. destruct (EnvVarConfig.default config); reflexivity.
  - intros src1 src2 H1 H2.
    rewrite !env_unset; [reflexivity| |]; unfold source_or_env.
    + rewrite H2. reflexivity.
    + rewrite H1. reflexivity.
  - intros own Hown Hproto. unfold Source_read, plain_object.
    rewrite lookup_union_r by (rewrite lookup_fmap, Hown; reflexivity).
    rewrite Hproto. reflexivity.
Qed.

(** X17. With both [transform] and [validate] configured, the calls
    [env] makes are: none when reading the key yields [undefined] or
    the empty string, when the parser throws or when the enum check
    rejects; otherwise first [transform] on the parsed value and then,
    when [transform] returned, [validate] on what it returned. For any
    config, nothing is called when reading the key yields [undefined]
    or the empty string. Kind number, raw "-5", transform abs,
    validate (> 0) yields 5. *)
Theorem env_transform_before_validate :
  (forall config source f g,
      EnvVarConfig.transform config = Some f ->
      EnvVarConfig.validate config = Some g ->
      log_of (env config source) =
        if not_set (Source_read (source_or_env source) (EnvVarConfig.key config))
        then []
        else
          match parseValue_any
                  (Source_read (source_or_env source) (EnvVarConfig.key config))
                  config with
          | Throw _ => []
          | Ok v =>
              if enum_rejects config v then []
              else CallTransform v ::
                     match f v with
                     | Ok v' => [CallValidate v']
                     | Throw _ => []
                     end
          end)
  /\ (forall config source,
        not_set (Source_read (source_or_env source) (EnvVarConfig.key config)) = true ->
        log_of (env config source) = [])
  /\ env config_abs_positive (source_of "N" "-5")
     = ([CallTransform (VNum (JsNumber.Number "-5"));
         CallValidate (VNum (JsNumber.ofZ 5))],
        Ok (VNum (JsNumber.ofZ 5))).
Proof.
  split; [|split].
  - intros config source f g Hf Hg.
    destruct (not_set _) eqn:Hset.
    + rewrite (env_unset _ _ Hset). apply env_not_set_log.
    + apply (env_set_log _ _ f g); assumption.
  - intros config source Hset.
    rewrite (env_unset _ _ Hset). apply env_not_set_log.
  - vm_compute. reflexivity.
Qed.

Lemma env_after_enum config source raw v0 :
  present (Source_get (source_or_env source) (EnvVarConfig.key config)) = Some raw ->
  parseValue raw config = Ok v0 ->
  enum_rejects config v0 = false ->
  env config source =
    (value <- env_transform config v0 ;; env_validate config value ;;; ret value).
Proof.
  intros Hraw Hparse Henum.
  rewrite (env_present _ _ _ Hraw), Hparse, bind_lift_Ok, env_enum_cases, Henum.
  unfold bind at 1. unfold ret at 1.
  destruct (bind _ _). reflexivity.
Qed.

Lemma outcome_after_transform config v0 v g :
  transformed config v0 = Ok v ->
  EnvVarConfig.validate config = Some g ->
  outcome (value <- env_transform config v0 ;; env_validate config value ;;; ret value)
  = match g v with
    | Ok (VBool false) =>
        Throw (EnvError_of (EnvVarConfig.key config) ["Failed custom validation"])
    | Ok (VStr s) => Throw (EnvError_of (EnvVarConfig.key config) [s])
    | Ok _ => Ok v
    | Throw e => Throw e
    end.
Proof.
  unfold transformed, env_transform, env_validate. intros Ht ->.
  destruct (EnvVarConfig.transform config) as [f|].
  - rewrite Ht. run_M. destruct (g v) as [[| |[]| | |]|]; reflexivity.
  - injection Ht as ->. run_M. destruct (g v) as [[| |[]| | |]|]; reflexivity.
Qed.

(** C4, amended. When the raw value is present, parsed and past the
    enum check, and [validate] is called on the (transformed) value:
    [false] gives [EnvError(key, ["Failed custom validation"])], any
    string, the empty one included, gives [EnvError(key, [thatString])],
    and any other result gives the value. *)
Theorem env_validate_outcome config source raw v0 v g r :
  present (Source_get (source_or_env source) (EnvVarConfig.key config)) = Some raw ->
  parseValue raw config = Ok v0 ->
  enum_rejects config v0 = false ->
  transformed config v0 = Ok v ->
  EnvVarConfig.validate config = Some g ->
  g v = Ok r ->
  (r = VBool false ->
   outcome (env config source) =
     Throw (ThrownEnvError
              (EnvError.mk (EnvVarConfig.key config) ["Failed custom validation"])))
  /\ (forall s, r = VStr s ->
      outcome (env config source) =
        Throw (ThrownEnvError (EnvError.mk (EnvVarConfig.key config) [s])))
  /\ (r <> VBool false -> (forall s, r <> VStr s) ->
      outcome (env config source) = Ok v).
Proof.
  intros Hraw Hparse Henum Ht Hg Hr.
  rewrite (env_after_enum _ _ _ _ Hraw Hparse Henum),
    (outcome_after_transform _ _ _ _ Ht Hg), Hr.
  repeat split.
  - intros ->. reflexivity.
  - intros s ->. reflexivity.
  - intros Hfalse Hstr. destruct r as [| |[]| | |]; try reflexivity.
    + congruence.
    + destruct (Hstr s). reflexivity.
Qed.

Lemma includes_VStr (choices : list jsvalue) (raw : string) :
  includes choices (VStr raw) = true <-> VStr raw ∈ choices.
Proof.
  unfold includes. rewrite existsb_exists. split.
  - intros (x & Hin & Hx). apply list_elem_of_In in Hin.
    destruct x; try discriminate. unfold sameValueZero, JsString.eqb in Hx.
    case_bool_decide; [subst; assumption | discriminate].
  - intros Hin. exists (VStr raw). split; [by apply list_elem_of_In|].
    unfold sameValueZero, JsString.eqb. by case_bool_decide.
Qed.

(** C8, amended. For a config of type enum with choices and a present
    raw value: when the raw string is not among the choices, [env]
    throws [EnvError(key, ["Expected one of [<choices joined by ", ">],
    got "<raw>""])], whatever [transform] and [validate] are; when it is,
    the string goes on to [transform] and [validate], and is returned
    when neither is configured. *)
Theorem env_enum_choices config source raw (choices : list jsvalue) :
  EnvVarConfig.type config = Some TEnum ->
  EnvVarConfig.choices config = Some choices ->
  present (Source_get (source_or_env source) (EnvVarConfig.key config)) = Some raw ->
  (VStr raw ∉ choices ->
   env config source =
     ([], Throw (ThrownEnvError
            (EnvError.mk (EnvVarConfig.key config)
               ["Expected one of [" ++ join choices ", " ++ "], got "
                  ++ JsString.dquote ++ raw ++ JsString.dquote]))))
  /\ (VStr raw ∈ choices ->
      env config source =
        (value <- env_transform config (VStr raw) ;;
         env_validate config value ;;; ret value))
  /\ (VStr raw ∈ choices ->
      EnvVarConfig.transform config = None ->
      EnvVarConfig.validate config = None ->
      env config source = ([], Ok (VStr raw))).
Proof.
  intros Htype Hchoices Hraw.
  assert (Hparse : parseValue raw config = Ok (VStr raw)).
  { unfold parseValue. rewrite Htype. reflexivity. }
  assert (Hrej : enum_rejects config (VStr raw) = negb (includes choices (VStr raw))).
  { unfold enum_rejects. rewrite Htype, Hchoices. reflexivity. }
  repeat split.
  - intros Hnot. rewrite (env_present _ _ _ Hraw), Hparse, bind_lift_Ok.
    rewrite env_enum_cases, Hrej, Hchoices.
    destruct (includes choices (VStr raw)) eqn:Hin; [|reflexivity].
    apply includes_VStr in Hin. contradiction.
  - intros Hin. apply (env_after_enum _ _ raw); [assumption..|].
    rewrite Hrej. apply includes_VStr in Hin. rewrite Hin. reflexivity.
  - intros Hin Hf Hg. rewrite (env_after_enum _ _ raw (VStr raw)); try assumption.
    + unfold env_transform, env_validate. rewrite Hf, Hg. reflexivity.
    + rewrite Hrej. apply includes_VStr in Hin. rewrite Hin. reflexivity.
Qed.

(** C10, amended. When reading the key yields a string or [undefined],
    whatever [env] throws is either an [EnvError] for the config's key
    with exactly one message, or the very exception a call of the
    user's [transform] or [validate] threw. Every parser throws only
    single-message [EnvError]s. *)
Theorem env_throws_single_message :
  (forall config source log e,
      string_or_undefined
        (Source_read (source_or_env source) (EnvVarConfig.key config)) = true ->
      env config source = (log, Throw e) ->
      (exists msg, e = ThrownEnvError (EnvError.mk (EnvVarConfig.key config) [msg]))
      \/ (exists f v, EnvVarConfig.transform config = Some f /\ f v = Throw e)
      \/ (exists g v, EnvVarConfig.validate config = Some g /\ g v = Throw e))
  /\ (forall raw config e,
        parseValue raw config = Throw e ->
        exists msg, e = ThrownEnvError (EnvError.mk (EnvVarConfig.key config) [msg])).
Proof.
  split; [|apply parseValue_Throw].
  intros config source log e Hstr.
  destruct (string_or_undefined_cases _ _ Hstr) as [[raw Hraw]|Hraw].
  - rewrite (env_present _ _ _ Hraw).
    destruct (parseValue raw config) as [v|e'] eqn:Hparse.
    + rewrite bind_lift_Ok, env_enum_cases.
      destruct (enum_rejects config v).
      { intros [= _ <-]. left. eauto. }
      unfold env_transform, env_validate.
      destruct (EnvVarConfig.transform config) as [f|];
        destruct (EnvVarConfig.validate config) as [g|]; run_M.
      * destruct (f v) as [v'|e'] eqn:Hf; cbn.
        2:{ intros [= _ <-]. right. left. eauto. }
        destruct (g v') as [[| |[]| | |]|e'] eqn:Hg; cbn;
          intros [= _ <-]; eauto 10.
      * destruct (f v) as [v'|e'] eqn:Hf; cbn; intros [= _ <-]; eauto 10.
      * destruct (g v) as [[| |[]| | |]|e'] eqn:Hg; cbn;
          intros [= _ <-]; eauto 10.
      * discriminate.
    + intros [= _ <-]. left. eapply parseValue_Throw, Hparse.
  - rewrite (env_unset _ _ Hraw). unfold env_not_set.
    destruct (EnvVarConfig.default config); try discriminate.
    destruct (EnvVarConfig.required config) as [[]|]; try discriminate;
      intros [= _ <-]; left; eauto.
Qed.

End EnvProperties.

(** ** Properties of the schema aggregator [envSchema] *)

Section SchemaProperties.
Context {host : Host}.

Implicit Types (schema entries : EnvSchema) (source : option Source).

Lemma envSchema_loop_cons name rawConfig rest source result errors :
  envSchema_loop ((name, rawConfig) :: rest) source result errors =
    match field_run source (name, rawConfig) with
    | (log, Ok v) =>
        let '(log', r) :=
          envSchema_loop rest source (set_property name v result) errors in
        (app log log', r)
    | (log, Throw (ThrownEnvError e)) =>
        let '(log', r) := envSchema_loop rest source result (app errors [e]) in
        (app log log', r)
    | (log, Throw e) => (log, Throw e)
    end.
Proof.
  unfold field_run. cbn [envSchema_loop fst snd].
  destruct (env (normalizeConfig rawConfig name) source) as [log [v|[e|e|x]]];
    run_M; rewrite ?app_nil_r; reflexivity.
Qed.

Lemma envSchema_loop_no_fault entries source result errors :
  Forall (fun entry => is_fault (field_run source entry) = false) entries ->
  envSchema_loop entries source result errors =
    (List.concat (map (fun entry => log_of (field_run source entry)) entries),
     Ok (assign_all result (omap (field_value source) entries),
         app errors (omap (fun entry => field_error (field_run source entry)) entries))).
Proof.
  intros Hall. revert result errors.
  induction Hall as [|[name rawConfig] rest Hx _ IH]; intros result errors.
  - cbn. rewrite app_nil_r. reflexivity.
  - rewrite envSchema_loop_cons. unfold is_fault, field_value, field_error in *.
    cbn [map omap list_omap List.concat fst]. unfold log_of, outcome in *.
    destruct (field_run source (name, rawConfig)) as [log [v|[e|e|x]]];
      cbn in Hx |- *; try discriminate.
    + rewrite IH. reflexivity.
    + rewrite IH, <- app_assoc. reflexivity.
Qed.

Lemma envSchema_loop_fault pre entry post source result errors e :
  Forall (fun entry => is_fault (field_run source entry) = false) pre ->
  outcome (field_run source entry) = Throw e ->
  (forall ee, e <> ThrownEnvError ee) ->
  envSchema_loop (app pre (entry :: post)) source result errors =
    (app (List.concat (map (fun entry => log_of (field_run source entry)) pre))
         (log_of (field_run source entry)),
     Throw e).
Proof.
  intros Hall He Hne. revert result errors.
  induction Hall as [|[name rawConfig] rest Hx _ IH]; intros result errors.
  - destruct entry as [name rawConfig]. cbn [app List.concat map].
    rewrite envSchema_loop_cons. unfold log_of, outcome in *.
    destruct (field_run source (name, rawConfig)) as [log [v|[ee|ee|x]]];
      cbn in He |- *; try discriminate; injection He as <-;
      [destruct (Hne ee); reflexivity|reflexivity..].
  - cbn [app]. rewrite envSchema_loop_cons. unfold is_fault in Hx.
    cbn [map List.concat]. unfold log_of, outcome in *.
    destruct (field_run source (name, rawConfig)) as [log [v|[ee|ee|x]]];
      cbn in Hx |- *; try discriminate; rewrite IH, app_assoc; reflexivity.
Qed.

Lemma assign_all_dom (l : list (string * jsvalue)) (result : gmap string jsvalue) :
  dom (assign_all result l)
  = list_to_set (List.filter (fun name => negb (JsString.eqb name "__proto__")) l.*1)
    ∪ dom result.
Proof.
  unfold assign_all. revert result. induction l as [|[k v] l IH]; intros result.
  - cbn. by rewrite (left_id_L ∅ (∪)).
  - cbn [foldl fst snd fmap list_fmap List.filter]. rewrite IH. unfold set_property.
    destruct (JsString.eqb k "__proto__"); cbn [negb]; [reflexivity|].
    rewrite dom_insert_L. cbn [list_to_set].
    by rewrite (assoc_L (∪)), (comm_L (∪) _ {[k]}).
Qed.

Lemma assign_all_lookup_notin (l : list (string * jsvalue)) result k :
  k ∉ l.*1 -> assign_all result l !! k = result !! k.
Proof.
  unfold assign_all. revert result. induction l as [|[k0 v0] l IH]; intros result Hk.
  - reflexivity.
  - cbn in Hk. apply not_elem_of_cons in Hk as [Hne Hk].
    cbn [foldl fst snd]. rewrite IH by assumption. unfold set_property.
    destruct (JsString.eqb k0 "__proto__"); [reflexivity|].
    by rewrite lookup_insert_ne.
Qed.

Lemma assign_all_lookup (l : list (string * jsvalue)) result k v :
  NoDup l.*1 -> (k, v) ∈ l -> k <> "__proto__" ->
  assign_all result l !! k = Some v.
Proof.
  revert result. induction l as [|[k0 v0] l IH]; intros result Hnd Hin Hk.
  - by apply elem_of_nil in Hin.
  - cbn in Hnd. apply NoDup_cons in Hnd as [Hk0 Hnd].
    apply elem_of_cons in Hin as [[= -> ->]|Hin].
    + unfold assign_all. cbn [foldl fst snd].
      fold (assign_all (set_property k0 v0 result) l).
      rewrite assign_all_lookup_notin by assumption. unfold set_property, JsString.eqb.
      rewrite bool_decide_eq_false_2 by assumption. by rewrite lookup_insert_eq.
    + unfold assign_all. cbn [foldl fst snd].
      fold (assign_all (set_property k0 v0 result) l). by apply IH.
Qed.

Lemma NoDup_List_filter {A : Type} (f : A -> bool) (l : list A) :
  NoDup l -> NoDup (List.filter f l).
Proof.
  induction 1 as [|x l Hx Hnd IH]; cbn [List.filter]; [constructor|].
  destruct (f x); [|assumption]. constructor; [|assumption].
  intros Hin. apply Hx. apply list_elem_of_In.
  apply list_elem_of_In in Hin. by apply List.filter_In in Hin as [Hin _].
Qed.

Lemma insert_by_index_perm x l : insert_by_index x l ≡ₚ x :: l.
Proof.
  induction l as [|y l IH]; [reflexivity|]. cbn [insert_by_index].
  destruct (fst x <? fst y); [reflexivity|]. rewrite IH. apply Permutation_swap.
Qed.

(** [Object.entries] lists every own property once. *)
Lemma Object_entries_perm declared : Object_entries declared ≡ₚ declared.
Proof.
  unfold Object_entries. induction declared as [|entry rest IH]; [reflexivity|].
  cbn [omap list_omap List.filter].
  destruct (array_index (fst entry)) as [i|].
  - cbn [foldr]. rewrite insert_by_index_perm. cbn [map snd app].
    rewrite IH. reflexivity.
  - rewrite <- Permutation_middle, IH. reflexivity.
Qed.

(** Without array indices among the names, [Object.entries] keeps the
    order of creation. *)
Lemma Object_entries_no_index declared :
  Forall (fun entry => array_index (fst entry) = None) declared ->
  Object_entries declared = declared.
Proof.
  intros Hall. unfold Object_entries.
  enough (H : omap (fun entry => match array_index (fst entry) with
                                 | Some i => Some (i, entry)
                                 | None => None
                                 end) declared = []
              /\ List.filter (fun entry => match array_index (fst entry) with
                                           | Some _ => false
                                           | None => true
                                           end) declared = declared).
  { destruct H as [-> ->]. reflexivity. }
  induction Hall as [|entry rest Hx _ [IH1 IH2]]; [split; reflexivity|].
  cbn [omap list_omap List.filter]. rewrite Hx, IH2. split; [exact IH1|reflexivity].
Qed.

(** When no field throws, every field yields a result entry. *)
Lemma field_values_all entries source :
  Forall (fun entry => is_fault (field_run source entry) = false) entries ->
  omap (fun entry => field_error (field_run source entry)) entries = [] ->
  omap (field_value source) entries
  = map (fun entry =>
           (fst entry,
            match outcome (field_run source entry) with
            | Ok v => v
            | Throw _ => VUndefined
            end)) entries
  /\ Forall (fun entry => exists v, outcome (field_run source entry) = Ok v) entries.
Proof.
  induction 1 as [|entry rest Hx _ IH]; [split; [reflexivity|constructor]|].
  cbn [omap list_omap map]. unfold field_value, field_error, is_fault in *.
  destruct (outcome (field_run source entry)) as [v|[e|e|x]] eqn:Hout;
    intros Herr; try congruence.
  destruct (IH Herr) as [-> Hall].
  split; [reflexivity|]. constructor; eauto.
Qed.

(** C1, amended. [envSchema] resolves the entries of the schema in the
    order [Object.entries] lists them: every declared field once, in
    declaration order when no name is an array index. When no field
    throws anything other than an [EnvError], every field is resolved
    (the calls made are those of all fields, in order) and: if some
    field threw an [EnvError], [envSchema] throws one
    [EnvValidationError] holding exactly the [EnvError]s of the fields
    that threw, in that order; if none did, it returns a result whose
    keys are the entry names other than __proto__, with one entry per
    such field holding the field's value. When a field throws
    something that is not an [EnvError], [envSchema] throws that very
    exception and resolves no later field. *)
Theorem envSchema_collects_errors schema source :
  let run := field_run source in
  let errs := omap (fun entry => field_error (run entry)) schema in
  (Forall (fun entry => is_fault (run entry) = false) schema ->
   log_of (envSchema schema source)
   = List.concat (map (fun entry => log_of (run entry)) schema)
   /\ (errs <> [] ->
       outcome (envSchema schema source)
       = Throw (ThrownEnvValidationError (EnvValidationError.mk errs)))
   /\ (errs = [] ->
       exists result,
         outcome (envSchema schema source) = Ok result
         /\ dom result = list_to_set (own_names schema)
         /\ (NoDup schema.*1 ->
             size result = List.length (own_names schema)
             /\ forall entry, entry ∈ schema ->
                  exists v, outcome (run entry) = Ok v
                            /\ (fst entry <> "__proto__" ->
                                result !! fst entry = Some v))))
  /\ (forall pre entry post e,
        schema = app pre (entry :: post) ->
        Forall (fun entry => is_fault (run entry) = false) pre ->
        outcome (run entry) = Throw e ->
        (forall ee, e <> ThrownEnvError ee) ->
        envSchema schema source
        = (app (List.concat (map (fun entry => log_of (run entry)) pre))
               (log_of (run entry)),
           Throw e))
  /\ (forall declared : list (string * schemaEntry),
        Object_entries declared ≡ₚ declared
        /\ (Forall (fun entry => array_index (fst entry) = None) declared ->
            Object_entries declared = declared)).
Proof.
  cbv zeta. split; [|split].
  - intros Hall. unfold envSchema.
    rewrite (envSchema_loop_no_fault _ _ _ _ Hall). cbn [app].
    set (errs := omap (fun entry => field_error _) schema).
    split; [|split].
    + run_M. destruct errs; cbn; rewrite app_nil_r; reflexivity.
    + intros Hne. run_M. destruct errs; [congruence|reflexivity].
    + intros Hnil. destruct (field_values_all _ _ Hall Hnil) as [Hvals Hok].
      exists (assign_all ∅ (omap (field_value source) schema)).
      assert (Hfst : (omap (field_value source) schema).*1 = schema.*1).
      { rewrite Hvals, <- list_fmap_compose. reflexivity. }
      split; [run_M; rewrite Hnil; reflexivity|].
      split.
      { rewrite assign_all_dom, Hfst, dom_empty_L. apply (right_id_L ∅ (∪)). }
      intros Hnd. split.
      * rewrite <- size_dom, assign_all_dom, Hfst, dom_empty_L, (right_id_L ∅ (∪)).
        rewrite size_list_to_set by (apply NoDup_List_filter; assumption).
        reflexivity.
      * intros entry Hin. rewrite Forall_forall in Hok.
        destruct (Hok entry Hin) as [v Hv]. exists v. split; [assumption|].
        intros Hname. apply assign_all_lookup; [by rewrite Hfst| |assumption].
        rewrite Hvals. apply list_elem_of_fmap. exists entry.
        rewrite Hv. split; [reflexivity|assumption].
  - intros pre entry post e -> Hpre He Hne. unfold envSchema.
    rewrite (envSchema_loop_fault _ _ _ _ _ _ e Hpre He Hne). reflexivity.
  - intros declared. split; [apply Object_entries_perm|apply Object_entries_no_index].
Qed.

Lemma JsString_eqb_sym (a b : string) : JsString.eqb a b = bool_decide (b = a).
Proof. unfold JsString.eqb. apply bool_decide_ext. split; congruence. Qed.

Lemma find_validTypes (s : string) :
  find (fun t => JsString.eqb (EnvType_name t) s) validTypes = type_of_name s.
Proof.
  unfold type_of_name, validTypes. cbn [find EnvType_name].
  rewrite !JsString_eqb_sym. reflexivity.
Qed.

Lemma normalizeConfig_key_type name t :
  normalizeConfig (EntryConfig (key_type name t)) name = key_type name t.
Proof.
  unfold normalizeConfig, key_type. cbn. destruct (JsString.eqb name _); reflexivity.
Qed.

Lemma envSchema_loop_ext entries1 entries2 source result errors :
  map (fun entry => (fst entry, normalizeConfig (snd entry) (fst entry))) entries1
  = map (fun entry => (fst entry, normalizeConfig (snd entry) (fst entry))) entries2 ->
  envSchema_loop entries1 source result errors
  = envSchema_loop entries2 source result errors.
Proof.
  revert entries2 result errors.
  induction entries1 as [|[n1 c1] rest1 IH]; intros [|[n2 c2] rest2] result errors;
    cbn [map fst snd]; try discriminate; [reflexivity|].
  intros [= -> Hc Hrest]. cbn [envSchema_loop]. rewrite Hc.
  unfold bind. destruct (try_catch _ _) as [log [st|e]]; [|reflexivity].
  rewrite (IH rest2) by assumption. reflexivity.
Qed.

(** C9. A shorthand entry resolves as the explicit config it stands for:
    [normalizeConfig] maps the shorthand [s] under the name [name] and the
    explicit entry [{ key: name, type }] to the same config, where [type]
    is [s] when [s] is a type name and "string" otherwise; so [env] on
    the two and [envSchema] on schemas that differ in that entry behave
    alike. In particular FOO: "string" and BAR: "number". *)
Theorem shorthand_resolves_as_explicit name s source :
  normalizeConfig (EntryString s) name
  = normalizeConfig (EntryConfig (explicit_config name s)) name
  /\ normalizeConfig (EntryString s) name = explicit_config name s
  /\ env (normalizeConfig (EntryString s) name) source
     = env (normalizeConfig (EntryConfig (explicit_config name s)) name) source
  /\ (forall pre post,
        envSchema (app pre ((name, EntryString s) :: post)) source
        = envSchema (app pre ((name, EntryConfig (explicit_config name s)) :: post)) source)
  /\ explicit_config "FOO" "string" = key_type "FOO" TString
  /\ explicit_config "BAR" "number" = key_type "BAR" TNumber
  /\ envSchema [("FOO", EntryString "string"); ("BAR", EntryString "number")] source
     = envSchema [("FOO", EntryConfig (key_type "FOO" TString));
                  ("BAR", EntryConfig (key_type "BAR" TNumber))] source.
Proof.
  assert (Hexp : normalizeConfig (EntryString s) name = explicit_config name s).
  { unfold normalizeConfig, explicit_config. rewrite find_validTypes. reflexivity. }
  assert (Hnorm : normalizeConfig (EntryConfig (explicit_config name s)) name
                  = explicit_config name s).
  { unfold explicit_config. destruct (type_of_name s); apply normalizeConfig_key_type. }
  repeat split.
  - congruence.
  - assumption.
  - congruence.
  - intros pre post. unfold envSchema. f_equal. apply envSchema_loop_ext.
    rewrite !map_app. cbn [map fst snd]. congruence.
Qed.

End SchemaProperties.

(** ** Properties of the type parsers *)

Section ParserProperties.

Lemma includes_string_elem_of (l : list string) (s : string) :
  includes_string l s = true <-> s ∈ l.
Proof.
  unfold includes_string. rewrite existsb_exists. split.
  - intros (x & Hin & Hx). apply list_elem_of_In in Hin.
    unfold JsString.eqb in Hx. case_bool_decide; [by subst|discriminate].
  - intros Hin. exists s. split; [by apply list_elem_of_In|].
    unfold JsString.eqb. by case_bool_decide.
Qed.

Lemma isWhiteSpace_lowerChar (c : ascii) :
  JsString.isWhiteSpace (JsString.lowerChar c) = JsString.isWhiteSpace c.
Proof. destruct c as [[] [] [] [] [] [] [] []]; vm_compute; reflexivity. Qed.

Lemma toLowerCase_trimStart (s : string) :
  JsString.trimStart (JsString.toLowerCase s)
  = JsString.toLowerCase (JsString.trimStart s).
Proof.
  induction s as [|c s IH]; [reflexivity|].
  cbn [JsString.toLowerCase JsString.trimStart].
  rewrite isWhiteSpace_lowerChar.
  destruct (JsString.isWhiteSpace c); [assumption|reflexivity].
Qed.

Lemma toLowerCase_trimEnd (s : string) :
  JsString.trimEnd (JsString.toLowerCase s)
  = JsString.toLowerCase (JsString.trimEnd s).
Proof.
  induction s as [|c s IH]; [reflexivity|].
  cbn [JsString.toLowerCase JsString.trimEnd].
  rewrite IH, isWhiteSpace_lowerChar.
  destruct (JsString.trimEnd s); cbn [JsString.toLowerCase]; [|reflexivity].
  destruct (JsString.isWhiteSpace c); reflexivity.
Qed.

(** C7. [parseBoolean] lower-cases and trims the raw string (in either
    order) and returns [true] exactly when the result is one of true, 1,
    yes, on; [false] exactly when it is one of false, 0, no, off; and
    throws an [EnvError] with one message exactly when it is neither. *)
Theorem parseBoolean_spec (raw key : string) :
  let lower := JsString.trim (JsString.toLowerCase raw) in
  (parseBoolean raw key = Ok true <-> lower ∈ ["true"; "1"; "yes"; "on"])
  /\ (parseBoolean raw key = Ok false <-> lower ∈ ["false"; "0"; "no"; "off"])
  /\ ((exists msg, parseBoolean raw key = Throw (ThrownEnvError (EnvError.mk key [msg])))
      <-> (lower ∉ ["true"; "1"; "yes"; "on"]) /\ (lower ∉ ["false"; "0"; "no"; "off"]))
  /\ lower = JsString.toLowerCase (JsString.trim raw).
Proof.
  cbv zeta. unfold parseBoolean.
  set (lower := JsString.trim (JsString.toLowerCase raw)).
  pose proof (includes_string_elem_of ["true"; "1"; "yes"; "on"] lower) as Ht.
  pose proof (includes_string_elem_of ["false"; "0"; "no"; "off"] lower) as Hf.
  assert (Hdisjoint : lower ∈ ["true"; "1"; "yes"; "on"] ->
                      lower ∈ ["false"; "0"; "no"; "off"] -> False).
  { rewrite !elem_of_cons, !elem_of_nil. intros Ha Hb.
    repeat destruct Ha as [Ha|Ha]; try contradiction; rewrite Ha in Hb;
      repeat destruct Hb as [Hb|Hb]; try contradiction; discriminate. }
  destruct (includes_string ["true"; "1"; "yes"; "on"] lower);
    destruct (includes_string ["false"; "0"; "no"; "off"] lower);
    (split; [|split; [|split]]);
    try (subst lower; unfold JsString.trim;
         rewrite toLowerCase_trimStart, toLowerCase_trimEnd; reflexivity);
    try (split; [intros [msg [=]] | intros [Hnt Hnf]]);
    try (split; intros; try discriminate; try reflexivity);
    try tauto; try (exfalso; intuition congruence); eauto.
Qed.

(** *** Rounding never produces NaN *)

Lemma shr_1_nonneg (mrs : shr_record) : 0 <= shr_m mrs -> 0 <= shr_m (shr_1 mrs).
Proof.
  destruct mrs as [m r t]. cbn. destruct m as [|[p|p|]|[p|p|]]; cbn; lia.
Qed.

Lemma iter_pos_shr_1_nonneg (n : positive) (mrs : shr_record) :
  0 <= shr_m mrs -> 0 <= shr_m (SpecFloat.iter_pos shr_1 n mrs).
Proof.
  revert mrs. induction n as [n IH|n IH|]; intros mrs Hm; cbn.
  - apply IH, IH, shr_1_nonneg, Hm.
  - apply IH, IH, Hm.
  - apply shr_1_nonneg, Hm.
Qed.

Lemma shr_fexp_nonneg (m e : Z) (l : location) :
  0 <= m -> 0 <= shr_m (fst (shr_fexp JsNumber.prec JsNumber.emax m e l)).
Proof.
  intros Hm. unfold shr_fexp, shr.
  assert (H0 : 0 <= shr_m (shr_record_of_loc m l)).
  { destruct l as [|[]]; exact Hm. }
  destruct (Z.sub _ e); cbn [fst]; try assumption.
  apply iter_pos_shr_1_nonneg, H0.
Qed.

Lemma round_nearest_even_nonneg (m : Z) (l : location) :
  0 <= m -> 0 <= round_nearest_even m l.
Proof. destruct l as [|[]]; cbn; try destruct (Z.even m); lia. Qed.

Lemma binary_round_aux_not_nan (neg : bool) (m e : Z) (l : location) :
  0 <= m ->
  JsNumber.isNaN (binary_round_aux JsNumber.prec JsNumber.emax neg m e l) = false.
Proof.
  intros Hm. unfold binary_round_aux.
  pose proof (shr_fexp_nonneg m e l Hm) as H1.
  destruct (shr_fexp _ _ m e l) as [mrs' e']. cbn [fst] in H1.
  pose proof (shr_fexp_nonneg _ e' loc_Exact
                (round_nearest_even_nonneg _ (loc_of_shr_record mrs') H1)) as H2.
  destruct (shr_fexp _ _ _ e' loc_Exact) as [mrs'' e'']. cbn [fst] in H2.
  destruct (shr_m mrs''); [reflexivity| |lia].
  destruct (_ <=? _); reflexivity.
Qed.

Lemma ofDecimal_not_nan (neg : bool) (mant : N) (exp10 : Z) :
  JsNumber.isNaN (JsNumber.ofDecimal neg mant exp10) = false.
Proof.
  unfold JsNumber.ofDecimal. destruct mant as [|p]; [reflexivity|].
  destruct (0 <=? exp10).
  - unfold binary_round. destruct (shl_align _ _ _) as [mz ez].
    apply binary_round_aux_not_nan. lia.
  - unfold JsNumber.ofRatio, SFdiv_core_binary.
    set (q := Z.to_pos (10 ^ (- exp10))).
    match goal with |- context [Z.div_eucl ?a (Z.pos q)] => set (m' := a) end.
    assert (Hm' : 0 <= m').
    { subst m'. destruct (_ - _); [lia| |lia]. apply Z.shiftl_nonneg. lia. }
    pose proof (Z.div_pos m' (Z.pos q) Hm' ltac:(lia)) as Hq.
    unfold Z.div in Hq. destruct (Z.div_eucl m' (Z.pos q)) as [qu r].
    apply binary_round_aux_not_nan, Hq.
Qed.

Lemma literalValue_not_nan (l : JsNumber.literal) :
  JsNumber.isNaN (JsNumber.literalValue l) = false.
Proof. destruct l; cbn; try reflexivity; apply ofDecimal_not_nan. Qed.

(** [Number] yields NaN exactly on the strings outside the grammar. *)
Lemma Number_NaN (s : string) :
  JsNumber.isNaN (JsNumber.Number s) = true
  <-> JsNumber.parseStringNumericLiteral s = None.
Proof.
  unfold JsNumber.Number.
  destruct (JsNumber.parseStringNumericLiteral s) as [[l|]|].
  - rewrite literalValue_not_nan. split; discriminate.
  - split; discriminate.
  - split; reflexivity.
Qed.

(** *** Plain decimal numerals are in the grammar *)

Lemma digit_decimal (c : ascii) :
  isDecimalDigit c = true -> JsNumber.digit 10 c = Some (JsString.code c - 48).
Proof.
  unfold isDecimalDigit, JsNumber.digit. intros H.
  apply andb_true_iff in H as [H1 H2]. rewrite H1, H2. cbn [andb].
  apply Z.leb_le in H1, H2.
  destruct (Z.ltb_spec (JsString.code c - 48) 10); [reflexivity|lia].
Qed.

Lemma digits_decimal (s rest : string) (acc count : Z) :
  allDecimalDigits s = true ->
  (forall a n, JsNumber.digits 10 a n rest = (a, n, rest)) ->
  JsNumber.digits 10 acc count (s ++ rest)
  = (decimalValue acc s, count + Z.of_nat (String.length s), rest).
Proof.
  intros Hs Hrest. revert acc count.
  induction s as [|c s IH]; intros acc count.
  - cbn. rewrite Hrest. f_equal. f_equal. lia.
  - cbn in Hs. apply andb_true_iff in Hs as [Hc Hs].
    change (String c s ++ rest) with (String c (s ++ rest)).
    cbn [JsNumber.digits decimalValue String.length].
    rewrite (digit_decimal c Hc), (IH Hs). f_equal. f_equal. lia.
Qed.

Lemma decimalValue_app (s t : string) (acc : Z) :
  decimalValue acc (s ++ t) = decimalValue (decimalValue acc s) t.
Proof. revert acc. induction s as [|c s IH]; intros acc; cbn; [reflexivity|apply IH]. Qed.

Lemma isWhiteSpace_decimal (c : ascii) :
  isDecimalDigit c = true -> JsString.isWhiteSpace c = false.
Proof.
  unfold isDecimalDigit, JsString.isWhiteSpace. intros H.
  apply andb_true_iff in H as [H1 H2]. apply Z.leb_le in H1, H2.
  repeat match goal with
         | |- context [?a <=? ?b] => destruct (Z.leb_spec a b); try lia
         | |- context [?a =? ?b] => destruct (Z.eqb_spec a b); try lia
         end; reflexivity.
Qed.

Lemma trim_noWhiteSpace (s : string) : noWhiteSpace s = true -> JsString.trim s = s.
Proof.
  intros H. unfold JsString.trim.
  assert (Hstart : JsString.trimStart s = s).
  { destruct s as [|c s]; [reflexivity|]. cbn in H |- *.
    destruct (JsString.isWhiteSpace c); [discriminate|reflexivity]. }
  rewrite Hstart. clear Hstart.
  induction s as [|c s IH]; [reflexivity|].
  cbn in H. apply andb_true_iff in H as [Hc Hs]. cbn [JsString.trimEnd].
  rewrite (IH Hs). destruct (JsString.isWhiteSpace c); [discriminate|].
  destruct s; reflexivity.
Qed.

Lemma noWhiteSpace_app (s t : string) :
  noWhiteSpace s = true -> noWhiteSpace t = true -> noWhiteSpace (s ++ t) = true.
Proof.
  intros Hs Ht. induction s as [|c s IH]; [assumption|].
  cbn in Hs. apply andb_true_iff in Hs as [Hc Hs].
  change (String c s ++ t) with (String c (s ++ t)). cbn [noWhiteSpace].
  rewrite Hc. apply IH, Hs.
Qed.

Lemma noWhiteSpace_decimal (s : string) :
  allDecimalDigits s = true -> noWhiteSpace s = true.
Proof.
  induction s as [|c s IH]; [reflexivity|]. cbn. intros H.
  apply andb_true_iff in H as [Hc Hs].
  rewrite (isWhiteSpace_decimal c Hc), (IH Hs). reflexivity.
Qed.

Lemma digits_decimal_end (s : string) (acc count : Z) :
  allDecimalDigits s = true ->
  JsNumber.digits 10 acc count s
  = (decimalValue acc s, count + Z.of_nat (String.length s), EmptyString).
Proof.
  intros Hs. revert acc count. induction s as [|c s IH]; intros acc count.
  - cbn. f_equal. f_equal. lia.
  - cbn in Hs. apply andb_true_iff in Hs as [Hc Hs].
    cbn [JsNumber.digits decimalValue String.length].
    rewrite (digit_decimal c Hc), (IH Hs). f_equal. f_equal. lia.
Qed.

Lemma not_radix_prefix (c : ascii) :
  JsString.code c <= 57 ->
  let n := JsString.code c in
  ((n =? 120) || (n =? 88) = false)
  /\ ((n =? 111) || (n =? 79) = false)
  /\ ((n =? 98) || (n =? 66) = false).
Proof.
  cbv zeta. intros H.
  repeat match goal with
         | |- context [?a =? ?b] => destruct (Z.eqb_spec a b); try lia
         end;
    repeat split.
Qed.

Lemma parseLiteral_digit_start (c0 : ascii) (r : string) :
  isDecimalDigit c0 = true ->
  (forall c1 r', r = String c1 r' -> JsString.code c1 <= 57) ->
  JsNumber.parseLiteral (String c0 r) = JsNumber.parseUnsignedDecimal false (String c0 r).
Proof.
  intros Hc0 Hr.
  destruct c0 as [[] [] [] [] [] [] [] []]; try discriminate Hc0; try reflexivity.
  destruct r as [|c1 r']; [reflexivity|].
  cbn [JsNumber.parseLiteral].
  destruct (not_radix_prefix c1 (Hr c1 r' eq_refl)) as (-> & -> & ->).
  reflexivity.
Qed.

Lemma parseUnsignedDecimal_plain (neg : bool) (int : string) (frac : option string) :
  isDecimalDigits int = true ->
  (forall f, frac = Some f -> isDecimalDigits f = true) ->
  JsNumber.parseUnsignedDecimal neg (plainDecimal false int frac)
  = Some (JsNumber.LDecimal neg
            (decimalValue 0 (int ++ match frac with Some f => f | None => EmptyString end))
            (- Z.of_nat (String.length
                           match frac with Some f => f | None => EmptyString end))).
Proof.
  intros Hint Hfrac. unfold plainDecimal.
  destruct int as [|c0 int']; [discriminate|]. cbn [isDecimalDigits] in Hint.
  unfold JsNumber.parseUnsignedDecimal.
  set (tail := match frac with Some f => "." ++ f | None => EmptyString end).
  assert (Hinf : JsString.eqb (String c0 int' ++ tail) "Infinity" = false).
  { unfold JsString.eqb. case_bool_decide as Heq; [|reflexivity].
    injection Heq as -> _. discriminate Hint. }
  change (EmptyString ++ String c0 int' ++ tail) with (String c0 int' ++ tail).
  rewrite Hinf. clear Hinf.
  rewrite (digits_decimal _ _ 0 0 Hint).
  2:{ intros a n. subst tail. destruct frac as [f|]; reflexivity. }
  subst tail.
  rewrite decimalValue_app.
  set (i := decimalValue 0 (String c0 int')).
  assert (Hn : (0 <? 0 + Z.of_nat (String.length (String c0 int'))) = true).
  { apply Z.ltb_lt. cbn [String.length]. lia. }
  destruct frac as [f|].
  - change ("." ++ f) with (String "."%char f). cbn iota beta.
    pose proof (Hfrac f eq_refl) as Hf.
    assert (Hf' : allDecimalDigits f = true) by (destruct f; [discriminate|exact Hf]).
    rewrite (digits_decimal_end f i 0 Hf'). cbn iota beta.
    assert (Hnf : (0 <? 0 + Z.of_nat (String.length (String c0 int'))
                        + (0 + Z.of_nat (String.length f))) = true).
    { apply Z.ltb_lt. cbn [String.length]. lia. }
    rewrite Hnf. cbn [JsNumber.parseExponent]. do 2 f_equal; lia.
  - cbn iota beta. rewrite Hn. cbn [JsNumber.parseExponent decimalValue String.length].
    reflexivity.
Qed.

(** [Number] accepts every plain decimal numeral and returns the number
    nearest to its value. *)
Lemma Number_plainDecimal (neg : bool) (int : string) (frac : option string) :
  isDecimalDigits int = true ->
  (forall f, frac = Some f -> isDecimalDigits f = true) ->
  JsNumber.Number (plainDecimal neg int frac) = plainDecimalValue neg int frac.
Proof.
  intros Hint Hfrac.
  assert (Hint' : allDecimalDigits int = true) by (destruct int; [discriminate|exact Hint]).
  assert (Hws : noWhiteSpace (plainDecimal neg int frac) = true).
  { unfold plainDecimal. apply noWhiteSpace_app; [destruct neg; reflexivity|].
    apply noWhiteSpace_app; [apply noWhiteSpace_decimal, Hint'|].
    destruct frac as [f|]; [|reflexivity].
    change ("." ++ f) with (String "."%char f). cbn [noWhiteSpace].
    pose proof (Hfrac f eq_refl) as Hf. apply noWhiteSpace_decimal.
    destruct f; [discriminate|exact Hf]. }
  assert (Hlit : JsNumber.parseLiteral (plainDecimal neg int frac)
                 = JsNumber.parseUnsignedDecimal neg (plainDecimal false int frac)).
  { destruct neg; [reflexivity|].
    unfold plainDecimal. cbn [append]. destruct int as [|c0 int']; [discriminate|].
    change (String c0 int' ++ ?t) with (String c0 (int' ++ t)).
    apply parseLiteral_digit_start.
    - cbn in Hint. apply andb_true_iff in Hint as [Hc0 _]. exact Hc0.
    - intros c1 r' Hr. destruct int' as [|c int''].
      + destruct frac as [f|]; [|discriminate Hr].
        injection Hr as <- _. vm_compute. discriminate.
      + injection Hr as <- _. cbn in Hint.
        apply andb_true_iff in Hint as [_ Hint].
        apply andb_true_iff in Hint as [Hc _].
        unfold isDecimalDigit in Hc. apply andb_true_iff in Hc as [_ Hc].
        apply Z.leb_le, Hc. }
  unfold JsNumber.Number, JsNumber.parseStringNumericLiteral.
  rewrite (trim_noWhiteSpace _ Hws).
  rewrite (parseUnsignedDecimal_plain neg int frac Hint Hfrac) in Hlit.
  destruct (plainDecimal neg int frac) as [|c r] eqn:Hs.
  - unfold plainDecimal in Hs. destruct neg, int; discriminate.
  - rewrite Hlit. reflexivity.
Qed.

(** C5. [parseNumber] returns [Number(raw)] when [raw] is a numeric
    literal of the grammar StringNumericLiteral, and that value is never
    NaN; it throws an [EnvError] with one message exactly when [raw] is
    not such a literal. Integers, negatives and decimals are literals and
    yield the number nearest to their value. *)
Theorem parseNumber_spec (raw key : string) :
  (JsNumber.parseStringNumericLiteral raw <> None ->
   parseNumber raw key = Ok (JsNumber.Number raw)
   /\ JsNumber.isNaN (JsNumber.Number raw) = false)
  /\ (JsNumber.parseStringNumericLiteral raw = None <->
      parseNumber raw key
      = Throw (ThrownEnvError
                 (EnvError.mk key
                    ["Expected a number, got " ++ JsString.dquote ++ raw
                       ++ JsString.dquote])))
  /\ (forall neg int frac,
        isDecimalDigits int = true ->
        (forall f, frac = Some f -> isDecimalDigits f = true) ->
        parseNumber (plainDecimal neg int frac) key
        = Ok (plainDecimalValue neg int frac))
  /\ parseNumber "3000" key = Ok (JsNumber.ofZ 3000)
  /\ parseNumber "-42" key = Ok (JsNumber.ofZ (-42))
  /\ parseNumber "3.14" key = Ok (S754_finite false 7070651414971679 (-51))
  /\ parseNumber "abc" key
     = Throw (ThrownEnvError
                (EnvError.mk key
                   ["Expected a number, got " ++ JsString.dquote ++ "abc"
                      ++ JsString.dquote])).
Proof.
  pose proof (Number_NaN raw) as HNaN. unfold parseNumber.
  split; [|split; [|split]].
  - intros Hlit. destruct (JsNumber.isNaN (JsNumber.Number raw)).
    + destruct Hlit. apply HNaN. reflexivity.
    + split; reflexivity.
  - rewrite <- HNaN. destruct (JsNumber.isNaN (JsNumber.Number raw)).
    + split; reflexivity.
    + split; discriminate.
  - intros neg int frac Hint Hfrac.
    rewrite (Number_plainDecimal neg int frac Hint Hfrac).
    unfold plainDecimalValue. rewrite ofDecimal_not_nan. reflexivity.
  - split; [vm_compute; reflexivity|].
    split; [vm_compute; reflexivity|].
    split; vm_compute; reflexivity.
Qed.

(** *** Comparison of integral numbers *)

Lemma toZ_denotes (x : JsNumber.number) (z : Z) :
  JsNumber.toZ x = Some z <->
  exists m e, JsNumber.finite x = Some (m, e) /\ denotes m e z.
Proof.
  unfold JsNumber.toZ, denotes. destruct (JsNumber.finite x) as [[m e]|].
  2:{ split; [discriminate|]. intros (m & e & [=] & _). }
  destruct (Z.leb_spec 0 e) as [He|He].
  - split.
    + intros [= <-]. exists m, e. split; [reflexivity|]. left. split; [lia|reflexivity].
    + intros (m' & e' & [= <- <-] & [[_ ->]|[Hneg _]]); [reflexivity|lia].
  - assert (Hp : 0 < 2 ^ (- e)) by (apply Z.pow_pos_nonneg; lia).
    destruct (Z.eqb_spec (m mod 2 ^ (- e)) 0) as [Hmod|Hmod].
    + split.
      * intros [= <-]. exists m, e. split; [reflexivity|]. right. split; [lia|].
        rewrite Z.mul_comm. apply Z.div_exact; lia.
      * intros (m' & e' & [= <- <-] & [[Hpos _]|[_ ->]]); [lia|].
        f_equal. apply Z.div_mul. lia.
    + split; [discriminate|].
      intros (m' & e' & [= <- <-] & [[Hpos _]|[_ Hm]]); [lia|].
      destruct Hmod. rewrite Hm. apply Z.mod_mul. lia.
Qed.

Lemma denotes_scale_neg (m e z k : Z) :
  denotes m e z -> k <= e -> k <= 0 -> m * 2 ^ (e - k) = z * 2 ^ (- k).
Proof.
  intros [[He ->]|[He ->]] Hk Hk0.
  - rewrite <- Z.mul_assoc, <- Z.pow_add_r by lia. do 2 f_equal; lia.
  - rewrite <- Z.mul_assoc, <- Z.pow_add_r by lia. do 2 f_equal; lia.
Qed.

Lemma denotes_scale_pos (m e z k : Z) :
  denotes m e z -> k <= e -> 0 <= k -> z = m * 2 ^ (e - k) * 2 ^ k.
Proof.
  intros [[He ->]|[He _]] Hk Hk0; [|lia].
  rewrite <- Z.mul_assoc, <- Z.pow_add_r by lia. do 2 f_equal; lia.
Qed.

Lemma Z_mul_compare_pos_r (a b p : Z) : 0 < p -> (a * p ?= b * p) = (a ?= b).
Proof.
  intros Hp. destruct (Z.compare_spec a b) as [->|Hlt|Hgt].
  - apply Z.compare_refl.
  - apply Z.compare_lt_iff. nia.
  - apply Z.compare_gt_iff. nia.
Qed.

Lemma cmpFinite_denotes (m e z m' e' z' : Z) :
  denotes m e z -> denotes m' e' z' ->
  JsNumber.cmpFinite (m, e) (m', e') = (z ?= z').
Proof.
  intros H H'. unfold JsNumber.cmpFinite.
  set (k := Z.min e e').
  destruct (Z.le_gt_cases 0 k) as [Hk|Hk].
  - rewrite (denotes_scale_pos m e z k H), (denotes_scale_pos m' e' z' k H') by lia.
    symmetry. apply Z_mul_compare_pos_r. apply Z.pow_pos_nonneg; lia.
  - rewrite (denotes_scale_neg m e z k H), (denotes_scale_neg m' e' z' k H') by lia.
    apply Z_mul_compare_pos_r. apply Z.pow_pos_nonneg; lia.
Qed.

Lemma lt_toZ (x y : JsNumber.number) (z z' : Z) :
  JsNumber.toZ x = Some z -> JsNumber.toZ y = Some z' ->
  JsNumber.lt x y = (z <? z').
Proof.
  intros Hx Hy.
  apply toZ_denotes in Hx as (m & e & Hfx & Hd).
  apply toZ_denotes in Hy as (m' & e' & Hfy & Hd').
  assert (Hc : JsNumber.compare x y = Some (JsNumber.cmpFinite (m, e) (m', e'))).
  { destruct x, y; try discriminate; cbn in Hfx, Hfy |- *;
      injection Hfx as <- <-; injection Hfy as <- <-; reflexivity. }
  unfold JsNumber.lt. rewrite Hc, (cmpFinite_denotes _ _ _ _ _ _ Hd Hd').
  unfold Z.ltb. destruct (z ?= z'); reflexivity.
Qed.

Lemma toZ_not_nan (x : JsNumber.number) (z : Z) :
  JsNumber.toZ x = Some z -> JsNumber.isNaN x = false.
Proof. destruct x; [reflexivity..|discriminate|reflexivity]. Qed.

(** C6. [parsePort] returns [Number(raw)] exactly when that number
    denotes an integer between 0 and 65535, bounds included, and throws
    an [EnvError] with one message in every other case (not numeric, not
    integral, out of range). "0" and "65535" succeed; "-1" and "99999"
    fail. *)
Theorem parsePort_spec (raw key : string) :
  let in_range := exists z, JsNumber.toZ (JsNumber.Number raw) = Some z
                            /\ 0 <= z <= 65535 in
  (forall n, parsePort raw key = Ok n <-> n = JsNumber.Number raw /\ in_range)
  /\ (parsePort raw key
      = Throw (ThrownEnvError
                 (EnvError.mk key
                    ["Expected a port (0-65535), got " ++ JsString.dquote ++ raw
                       ++ JsString.dquote]))
      <-> ~ in_range)
  /\ parsePort "0" key = Ok (JsNumber.ofZ 0)
  /\ parsePort "65535" key = Ok (JsNumber.ofZ 65535)
  /\ (forall bad, bad ∈ ["-1"; "99999"; "80.5"; "http"] ->
      parsePort bad key
      = Throw (ThrownEnvError
                 (EnvError.mk key
                    ["Expected a port (0-65535), got " ++ JsString.dquote ++ bad
                       ++ JsString.dquote]))).
Proof.
  cbv zeta. unfold parsePort. set (num := JsNumber.Number raw).
  assert (Hcases :
    (exists z, JsNumber.toZ num = Some z /\ 0 <= z <= 65535
               /\ JsNumber.isNaN num || negb (JsNumber.isInteger num)
                  || JsNumber.lt num (JsNumber.ofZ 0)
                  || JsNumber.gt num (JsNumber.ofZ 65535) = false)
    \/ ((~ exists z, JsNumber.toZ num = Some z /\ 0 <= z <= 65535)
        /\ JsNumber.isNaN num || negb (JsNumber.isInteger num)
           || JsNumber.lt num (JsNumber.ofZ 0)
           || JsNumber.gt num (JsNumber.ofZ 65535) = true)).
  { unfold JsNumber.isInteger, JsNumber.gt.
    destruct (JsNumber.toZ num) as [z|] eqn:Hz.
    - rewrite (toZ_not_nan _ _ Hz).
      rewrite (lt_toZ num (JsNumber.ofZ 0) z 0 Hz eq_refl).
      rewrite (lt_toZ (JsNumber.ofZ 65535) num 65535 z eq_refl Hz).
      cbn [negb orb].
      destruct (Z.ltb_spec z 0); [right; split; [|reflexivity]|].
      { intros (z' & [= <-] & Hr). lia. }
      destruct (Z.ltb_spec 65535 z); [right; split; [|reflexivity]|].
      { intros (z' & [= <-] & Hr). lia. }
      left. exists z. split; [reflexivity|]. split; [lia|reflexivity].
    - right. split; [intros (z & [=] & _)|].
      cbn [negb]. rewrite orb_true_r. reflexivity. }
  split; [|split].
  - intros n. destruct Hcases as [(z & Hz & Hr & ->)|[Hnot ->]].
    + split; [intros [= <-]; eauto|intros [-> _]; reflexivity].
    + split; [discriminate|intros [_ Hin]; contradiction].
  - destruct Hcases as [(z & Hz & Hr & ->)|[Hnot ->]].
    + split; [discriminate|intros Hnot; destruct Hnot; eauto].
    + split; [intros _; exact Hnot|reflexivity].
  - split; [vm_compute; reflexivity|].
    split; [vm_compute; reflexivity|].
    intros bad Hbad. rewrite !elem_of_cons, elem_of_nil in Hbad.
    destruct Hbad as [->|[->|[->|[->|[]]]]]; vm_compute; reflexivity.
Qed.

End ParserProperties.

(** ** The statements at concrete inputs *)

Lemma env_not_present_witness :
  Source_read (plain_object ∅) "PORT" = VUndefined
  /\ env (host := bare_host) config_port_default empty_source
     = ([], Ok (VNum (JsNumber.ofZ 3000))).
Proof.
  split; [reflexivity|].
  apply (proj1 (env_not_present (host := bare_host) config_port_default empty_source)).
  left. reflexivity.
Defined.

Lemma env_transform_before_validate_witness :
  EnvVarConfig.transform config_abs_positive = Some abs_transform
  /\ EnvVarConfig.validate config_abs_positive = Some positive_validate
  /\ log_of (env (host := bare_host) config_abs_positive (source_of "N" "-5"))
     = [CallTransform (VNum (JsNumber.ofZ (-5))); CallValidate (VNum (JsNumber.ofZ 5))].
Proof.
  split; [reflexivity|]. split; [reflexivity|].
  rewrite (proj1 (env_transform_before_validate (host := bare_host))
             config_abs_positive (source_of "N" "-5")
             abs_transform positive_validate eq_refl eq_refl).
  vm_compute. reflexivity.
Defined.

Lemma env_validate_outcome_witness :
  positive_or_message (VNum (JsNumber.ofZ (-5))) = Ok (VStr "Must be positive")
  /\ outcome (env (host := bare_host) config_must_be_positive (source_of "N" "-5"))
     = Throw (ThrownEnvError (EnvError.mk "N" ["Must be positive"])).
Proof.
  split; [vm_compute; reflexivity|].
  refine (proj1 (proj2 (env_validate_outcome (host := bare_host)
            config_must_be_positive (source_of "N" "-5") "-5"
            (VNum (JsNumber.ofZ (-5))) (VNum (JsNumber.ofZ (-5)))
            positive_or_message (VStr "Must be positive")
            _ _ _ _ _ _)) "Must be positive" eq_refl);
    vm_compute; reflexivity.
Defined.

(** C4 as stated fails: a validator that returns the empty string
    returns neither [false] nor a non-empty string, and [env] throws. *)
Lemma validate_empty_string_counterexample :
  ~ (forall config source raw v0 v g r,
       present (Source_get (source_or_env (host := bare_host) source)
                  (EnvVarConfig.key config)) = Some raw ->
       parseValue (host := bare_host) raw config = Ok v0 ->
       enum_rejects (host := bare_host) config v0 = false ->
       transformed config v0 = Ok v ->
       EnvVarConfig.validate config = Some g ->
       g v = Ok r ->
       (r = VBool false ->
        outcome (env (host := bare_host) config source) =
          Throw (ThrownEnvError
                   (EnvError.mk (EnvVarConfig.key config) ["Failed custom validation"])))
       /\ (forall s, r = VStr s -> s <> EmptyString ->
           outcome (env (host := bare_host) config source) =
             Throw (ThrownEnvError (EnvError.mk (EnvVarConfig.key config) [s])))
       /\ (r <> VBool false -> (forall s, r = VStr s -> s = EmptyString) ->
           outcome (env (host := bare_host) config source) = Ok v)).
Proof.
  intros H.
  destruct (H config_empty_message (source_of "K" "x") "x" (VStr "x") (VStr "x")
              (fun _ => Ok (VStr EmptyString)) (VStr EmptyString)
              eq_refl eq_refl eq_refl eq_refl eq_refl eq_refl) as (_ & _ & H3).
  assert (Hout : outcome (env (host := bare_host) config_empty_message (source_of "K" "x"))
                 = Ok (VStr "x")).
  { apply H3; [discriminate|]. intros s [= <-]. reflexivity. }
  vm_compute in Hout. discriminate Hout.
Qed.

Lemma env_enum_choices_witness :
  (VStr "d" ∉ [VStr "a"; VStr "b"; VStr "c"])
  /\ env (host := bare_host) config_enum_abc (source_of "E" "d")
     = ([], Throw (ThrownEnvError
              (EnvError.mk "E"
                 ["Expected one of [a, b, c], got " ++ JsString.dquote ++ "d"
                    ++ JsString.dquote]))).
Proof.
  assert (Hnot : VStr "d" ∉ [VStr "a"; VStr "b"; VStr "c"]).
  { rewrite !not_elem_of_cons. repeat split; try discriminate. apply not_elem_of_nil. }
  split; [exact Hnot|].
  apply (proj1 (env_enum_choices (host := bare_host) config_enum_abc
                  (source_of "E" "d") "d" [VStr "a"; VStr "b"; VStr "c"]
                  eq_refl eq_refl eq_refl)).
  exact Hnot.
Defined.

(** C8 as stated fails: a member of the choices is not returned when
    the config also has a [validate] that rejects it. *)
Lemma enum_member_rejected_counterexample :
  ~ (forall config source raw (choices : list jsvalue),
       EnvVarConfig.type config = Some TEnum ->
       EnvVarConfig.choices config = Some choices ->
       present (Source_get (source_or_env (host := bare_host) source)
                  (EnvVarConfig.key config)) = Some raw ->
       (VStr raw ∈ choices ->
        outcome (env (host := bare_host) config source) = Ok (VStr raw))
       /\ (VStr raw ∉ choices ->
           exists msg,
             outcome (env (host := bare_host) config source) =
               Throw (ThrownEnvError (EnvError.mk (EnvVarConfig.key config) [msg])))).
Proof.
  intros H.
  destruct (H config_enum_rejecting (source_of "E" "a") "a"
              [VStr "a"; VStr "b"; VStr "c"] eq_refl eq_refl eq_refl) as [Hin _].
  assert (Hout : outcome (env (host := bare_host) config_enum_rejecting (source_of "E" "a"))
                 = Ok (VStr "a")).
  { apply Hin. apply elem_of_cons. left. reflexivity. }
  vm_compute in Hout. discriminate Hout.
Qed.

Lemma env_throws_single_message_witness :
  string_or_undefined (Source_read (plain_object ∅) "REQUIRED") = true
  /\ env (host := bare_host) config_required empty_source
     = ([], Throw (ThrownEnvError (EnvError.mk "REQUIRED" ["Required but not set"])))
  /\ ((exists msg,
         ThrownEnvError (EnvError.mk "REQUIRED" ["Required but not set"])
         = ThrownEnvError (EnvError.mk (EnvVarConfig.key config_required) [msg]))
      \/ (exists f v,
            EnvVarConfig.transform config_required = Some f
            /\ f v = Throw (ThrownEnvError
                              (EnvError.mk "REQUIRED" ["Required but not set"])))
      \/ (exists g v,
            EnvVarConfig.validate config_required = Some g
            /\ g v = Throw (ThrownEnvError
                              (EnvError.mk "REQUIRED" ["Required but not set"])))).
Proof.
  split; [reflexivity|]. split; [reflexivity|].
  apply (proj1 (env_throws_single_message (host := bare_host))
           config_required empty_source [] _ eq_refl eq_refl).
Defined.

(** C10 as stated fails: what a [transform] throws leaves [env]
    unchanged, and need not be an [EnvError]. *)
Lemma transform_fault_counterexample :
  ~ (forall config source e,
       outcome (env (host := bare_host) config source) = Throw e ->
       exists msg,
         e = ThrownEnvError (EnvError.mk (EnvVarConfig.key config) [msg])).
Proof.
  intros H.
  destruct (H config_transform_throws (source_of "S" "hello")
              (ThrownOther (VStr "boom")) eq_refl) as [msg Hmsg].
  discriminate Hmsg.
Qed.

(** C1 as stated fails: the errors come in the order of
    [Object.entries], where the name 1, an array index, precedes the
    names B and A declared around it. *)
Lemma declaration_order_counterexample :
  ~ (forall (declared : list (string * schemaEntry)) source errors,
       NoDup declared.*1 ->
       outcome (envSchema (host := bare_host) (Object_entries declared) source)
       = Throw (ThrownEnvValidationError (EnvValidationError.mk errors)) ->
       errors
       = omap (fun entry => field_error (field_run (host := bare_host) source entry))
           declared).
Proof.
  intros H.
  assert (Hnd : NoDup schema_B_1_A.*1).
  { apply (bool_decide_unpack _). vm_compute. exact I. }
  specialize (H schema_B_1_A empty_source
                [EnvError.mk "1" ["Required but not set"];
                 EnvError.mk "B" ["Required but not set"];
                 EnvError.mk "A" ["Required but not set"]]
                Hnd eq_refl).
  vm_compute in H. discriminate H.
Qed.

Lemma envSchema_collects_errors_witness :
  Forall (fun entry => is_fault (field_run (host := bare_host) empty_source entry) = false)
    schema_three_required
  /\ outcome (envSchema (host := bare_host) schema_three_required empty_source)
     = Throw (ThrownEnvValidationError
                (EnvValidationError.mk
                   [EnvError.mk "A" ["Required but not set"];
                    EnvError.mk "B" ["Required but not set"];
                    EnvError.mk "C" ["Required but not set"]])).
Proof.
  assert (Hall : Forall (fun entry =>
                           is_fault (field_run (host := bare_host) empty_source entry)
                           = false)
                   schema_three_required).
  { repeat constructor. }
  split; [exact Hall|].
  apply (proj1 (proj2 (proj1 (envSchema_collects_errors (host := bare_host)
                                schema_three_required empty_source) Hall))).
  discriminate.
Defined.

Lemma parseNumber_spec_witness :
  JsNumber.parseStringNumericLiteral "3.14" <> None
  /\ parseNumber "3.14" "F" = Ok (JsNumber.Number "3.14")
  /\ JsNumber.isNaN (JsNumber.Number "3.14") = false.
Proof.
  assert (Hlit : JsNumber.parseStringNumericLiteral "3.14" <> None).
  { vm_compute. discriminate. }
  split; [exact Hlit|].
  exact (proj1 (parseNumber_spec "3.14" "F") Hlit).
Defined.

(** ** Further properties of [env] and the quick helpers *)

Section FurtherEnv.
Context {host : Host}.

Implicit Types (config : EnvVarConfig.t) (source : option Source).

Lemma parsePort_Ok_range (raw key : string) (n : JsNumber.number) :
  parsePort raw key = Ok n ->
  n = JsNumber.Number raw
  /\ exists z, JsNumber.toZ n = Some z /\ 0 <= z <= 65535.
Proof.
  unfold parsePort. set (num := JsNumber.Number raw).
  destruct (JsNumber.isNaN num) eqn:Hnan; [discriminate|].
  unfold JsNumber.isInteger, JsNumber.gt.
  destruct (JsNumber.toZ num) as [z|] eqn:Hz; [|discriminate].
  rewrite (lt_toZ num (JsNumber.ofZ 0) z 0 Hz eq_refl).
  rewrite (lt_toZ (JsNumber.ofZ 65535) num 65535 z eq_refl Hz).
  cbn [negb orb].
  destruct (Z.ltb_spec z 0); [discriminate|].
  destruct (Z.ltb_spec 65535 z); [discriminate|].
  intros [= <-]. split; [reflexivity|]. exists z. split; [assumption|lia].
Qed.

Lemma parseNumber_Ok (raw key : string) (n : JsNumber.number) :
  parseNumber raw key = Ok n ->
  n = JsNumber.Number raw /\ JsNumber.isNaN n = false.
Proof.
  unfold parseNumber. destruct (JsNumber.isNaN (JsNumber.Number raw)) eqn:Hnan;
    [discriminate|]. intros [= <-]. split; [reflexivity|assumption].
Qed.

(** What [env] does after parsing when the config has no [transform]. *)
Lemma env_present_no_transform config source raw :
  present (Source_get (source_or_env source) (EnvVarConfig.key config)) = Some raw ->
  EnvVarConfig.transform config = None ->
  forall v,
    outcome (env config source) = Ok v ->
    parseValue raw config = Ok v /\ enum_rejects config v = false.
Proof.
  intros Hraw Ht v. rewrite (env_present _ _ _ Hraw).
  destruct (parseValue raw config) as [v0|e]; [|discriminate].
  rewrite bind_lift_Ok, env_enum_cases.
  destruct (enum_rejects config v0) eqn:Henum; [discriminate|].
  unfold env_transform, env_validate. rewrite Ht.
  destruct (EnvVarConfig.validate config) as [g|]; run_M.
  - destruct (g v0) as [[| |[]| | |]|e]; cbn; intros [= <-]; split;
      reflexivity || assumption.
  - intros [= <-]. split; reflexivity || assumption.
Qed.

(** X1. A value that is set and not empty overrides the default: when the
    raw value is present, [env] behaves the same whatever the config's
    [default] and [required] are. *)
Theorem env_present_ignores_default config source raw (d : jsvalue) (r : option bool) :
  present (Source_get (source_or_env source) (EnvVarConfig.key config)) = Some raw ->
  env (with_default_required config d r) source = env config source.
Proof.
  intros Hraw.
  rewrite (env_present config source raw Hraw).
  rewrite (env_present (with_default_required config d r) source raw Hraw).
  reflexivity.
Qed.

(** X2. Whatever the config and the source, [env] calls [transform] at
    most once and [validate] at most once, and never [validate] before
    [transform]. *)
Theorem env_calls_in_order config source :
  calls_in_order (log_of (env config source)).
Proof.
  unfold calls_in_order.
  destruct (not_set (Source_read (source_or_env source) (EnvVarConfig.key config)))
    eqn:Hraw.
  2:{ rewrite (env_set _ _ Hraw).
    destruct (parseValue_any _ config) as [v|e]; [|left; reflexivity].
    rewrite bind_lift_Ok, env_enum_cases.
    destruct (enum_rejects config v); [left; reflexivity|].
    unfold env_transform, env_validate.
    destruct (EnvVarConfig.transform config) as [f|];
      destruct (EnvVarConfig.validate config) as [g|]; run_M.
    + destruct (f v) as [v'|e]; cbn; [|right; left; eauto].
      destruct (g v') as [[| |[]| | |]|e]; cbn; right; right; right; eauto.
    + destruct (f v) as [v'|e]; cbn; right; left; eauto.
    + destruct (g v) as [[| |[]| | |]|e]; cbn; right; right; left; eauto.
    + left; reflexivity. }
  rewrite (env_unset _ _ Hraw). left. apply env_not_set_log.
Qed.

(** X3. When reading the key yields a string or [undefined] and the
    config has no [transform], what [env] returns is the default or
    [undefined] when the variable is not set, and otherwise a value of
    the shape the type promises: the raw string itself for string, url
    and enum (a member of the choices when they are given), [Number(raw)]
    and not NaN for number, a boolean for boolean, what [JSON.parse]
    returned for json, a number denoting an integer from 0 to 65535 for
    port. *)
Theorem env_result_well_typed config source (v : jsvalue) :
  string_or_undefined
    (Source_read (source_or_env source) (EnvVarConfig.key config)) = true ->
  EnvVarConfig.transform config = None ->
  outcome (env config source) = Ok v ->
  match present (Source_get (source_or_env source) (EnvVarConfig.key config)) with
  | None =>
      (v = EnvVarConfig.default config /\ v <> VUndefined)
      \/ (v = VUndefined /\ EnvVarConfig.required config = Some false)
  | Some raw => well_typed config raw v
  end.
Proof.
  intros Hstr Ht Hv.
  destruct (present (Source_get (source_or_env source) (EnvVarConfig.key config)))
    as [raw|] eqn:Hraw.
  - destruct (env_present_no_transform _ _ _ Hraw Ht v Hv) as [Hparse Henum].
    unfold well_typed, parseValue, parseString, enum_rejects in *.
    destruct (EnvVarConfig.type config) as [[]|]; cbn in Hparse.
    + congruence.
    + destruct (parseNumber raw _) as [n|] eqn:Hn; [|discriminate].
      injection Hparse as <-. apply parseNumber_Ok in Hn as [-> Hnan]. eauto.
    + destruct (parseBoolean raw _) as [b|]; [|discriminate].
      injection Hparse as <-. eauto.
    + unfold parseJson in Hparse. destruct (JSON_parse raw); [assumption|discriminate].
    + unfold parseUrl in Hparse. destruct (URL_new raw); cbn in Hparse; congruence.
    + destruct (parsePort raw _) as [n|] eqn:Hn; [|discriminate].
      injection Hparse as <-. apply parsePort_Ok_range in Hn as [-> (z & Hz & Hr)].
      eauto.
    + injection Hparse as <-. split; [reflexivity|].
      intros choices Hc. rewrite Hc in Henum.
      apply includes_VStr. destruct (includes choices (VStr raw)); [reflexivity|discriminate].
    + congruence.
  - destruct (string_or_undefined_cases _ _ Hstr) as [[raw Hsome]|Hset];
      [congruence|].
    rewrite (env_unset _ _ Hset) in Hv. unfold env_not_set in Hv.
    destruct (EnvVarConfig.default config) eqn:Hd; cbn in Hv;
      try (injection Hv as <-; left; split; [reflexivity|discriminate]).
    destruct (EnvVarConfig.required config) as [[]|]; try discriminate.
    injection Hv as <-. right. split; reflexivity.
Qed.

(** The helpers read [process.env] with a config that has no
    [transform] and no [validate]. *)
Lemma env_key_type_default_unset (key : string) (type : EnvType) (d : jsvalue) :
  not_set (Source_read process_env key) = true ->
  env (key_type_default key type d) None =
    match d with
    | VUndefined =>
        ([], Throw (ThrownEnvError (EnvError.mk key ["Required but not set"])))
    | _ => ([], Ok d)
    end.
Proof.
  intros Hraw. rewrite env_unset by exact Hraw.
  unfold env_not_set. destruct d; reflexivity.
Qed.

Lemma env_key_type_default_set (key raw : string) (type : EnvType) (d : jsvalue) :
  process_env_value key = Some raw ->
  env (key_type_default key type d) None
  = lift (parseValue raw (key_type key type)).
Proof.
  intros Hraw. rewrite (env_present _ None raw) by exact Hraw.
  change (parseValue raw (key_type_default key type d))
    with (parseValue raw (key_type key type)).
  destruct (parseValue raw (key_type key type)) as [v|e]; [|reflexivity].
  rewrite bind_lift_Ok. unfold env_enum, env_transform, env_validate.
  destruct type; reflexivity.
Qed.

Lemma envEnum_unset (key : string) (choices : list string) (d : option string) :
  not_set (Source_read process_env key) = true ->
  envEnum key choices d =
    match d with
    | Some s => ([], Ok (VStr s))
    | None => ([], Throw (ThrownEnvError (EnvError.mk key ["Required but not set"])))
    end.
Proof.
  intros Hraw. unfold envEnum. rewrite env_unset by exact Hraw.
  unfold env_not_set. destruct d; reflexivity.
Qed.

(** A value that is no string is none of the choices of [envEnum]. *)
Lemma envEnum_not_string (key : string) (choices : list string) (d : option string) :
  not_set (Source_read process_env key) = false ->
  (forall s, Source_read process_env key <> VStr s) ->
  exists e, outcome (envEnum key choices d) = Throw e.
Proof.
  intros Hset Hns. unfold envEnum. rewrite env_set by exact Hset.
  cbn [source_or_env EnvVarConfig.key].
  set (raw := Source_read process_env key) in *.
  assert (Hinc : includes (map VStr choices) raw = false).
  { unfold includes. apply not_true_is_false. rewrite existsb_exists.
    intros (x & Hin & Hx). apply in_map_iff in Hin as (s & <- & _).
    destruct raw; try discriminate. destruct (Hns s0). reflexivity. }
  unfold parseValue_any. cbn [EnvVarConfig.type].
  rewrite bind_lift_Ok, env_enum_cases. unfold enum_rejects.
  cbn [EnvVarConfig.type EnvVarConfig.choices]. rewrite Hinc. cbn [negb].
  eexists. reflexivity.
Qed.

Lemma envEnum_set (key raw : string) (choices : list string) (d : option string) :
  process_env_value key = Some raw ->
  envEnum key choices d =
    if bool_decide (raw ∈ choices) then ([], Ok (VStr raw))
    else ([], Throw (ThrownEnvError
                 (EnvError.mk key
                    ["Expected one of [" ++ JsString.join ", " choices
                       ++ "], got " ++ JsString.dquote ++ raw
                       ++ JsString.dquote]))).
Proof.
  intros Hraw.
  unfold envEnum. rewrite (env_present _ None raw) by exact Hraw.
  cbn [parseValue EnvVarConfig.type EnvVarConfig.key parseString].
  rewrite bind_lift_Ok, env_enum_cases. unfold enum_rejects.
  cbn [EnvVarConfig.type EnvVarConfig.choices EnvVarConfig.key default].
  assert (Hjoin : join (map VStr choices) ", " = JsString.join ", " choices).
  { unfold join. rewrite map_map. cbn [ToString]. rewrite map_id. reflexivity. }
  unfold id, parseString. rewrite Hjoin.
  assert (Hin : includes (map VStr choices) (VStr raw) = bool_decide (raw ∈ choices)).
  { case_bool_decide as Hmem.
    - apply includes_VStr. apply list_elem_of_fmap. eauto.
    - destruct (includes (map VStr choices) (VStr raw)) eqn:Hinc; [|reflexivity].
      apply includes_VStr in Hinc. apply list_elem_of_fmap in Hinc as (s & [= ->] & Hs).
      contradiction. }
  rewrite Hin. destruct (bool_decide (raw ∈ choices)); reflexivity.
Qed.

(** X4. When reading the key from [process.env] yields [undefined] or
    the empty string, every helper returns the default it was given,
    unparsed and unchecked, and throws
    [EnvError(key, ["Required but not set"])] when it was given none. *)
Theorem helpers_unset (key : string) :
  not_set (Source_read process_env key) = true ->
  (forall d, envString key d =
     match d with
     | Some s => ([], Ok (VStr s))
     | None => ([], Throw (ThrownEnvError (EnvError.mk key ["Required but not set"])))
     end)
  /\ (forall d, envNumber key d =
        match d with
        | Some n => ([], Ok (VNum n))
        | None => ([], Throw (ThrownEnvError (EnvError.mk key ["Required but not set"])))
        end)
  /\ (forall d, envBool key d =
        match d with
        | Some b => ([], Ok (VBool b))
        | None => ([], Throw (ThrownEnvError (EnvError.mk key ["Required but not set"])))
        end)
  /\ (forall d, envPort key d =
        match d with
        | Some n => ([], Ok (VNum n))
        | None => ([], Throw (ThrownEnvError (EnvError.mk key ["Required but not set"])))
        end)
  /\ (forall d, envUrl key d =
        match d with
        | Some s => ([], Ok (VStr s))
        | None => ([], Throw (ThrownEnvError (EnvError.mk key ["Required but not set"])))
        end)
  /\ (forall d, envJson key d =
        match d with
        | VUndefined =>
            ([], Throw (ThrownEnvError (EnvError.mk key ["Required but not set"])))
        | _ => ([], Ok d)
        end)
  /\ (forall choices d, envEnum key choices d =
        match d with
        | Some s => ([], Ok (VStr s))
        | None => ([], Throw (ThrownEnvError (EnvError.mk key ["Required but not set"])))
        end).
Proof.
  intros Hraw.
  repeat split; intros;
    try (unfold envString, envNumber, envBool, envPort, envUrl, envJson;
         rewrite (env_key_type_default_unset _ _ _ Hraw);
         try destruct d; reflexivity).
  apply envEnum_unset, Hraw.
Qed.

(** X5. When the variable is set and not empty in [process.env], every
    helper ignores its default and returns what the parser of its type
    makes of the raw string: the string itself for [envString], and for
    [envEnum] the string itself when it is one of the choices, else the
    error that lists them. *)
Theorem helpers_set (key raw : string) :
  process_env_value key = Some raw ->
  (forall d, envString key d = ([], Ok (VStr raw)))
  /\ (forall d, envNumber key d = ([], result_map VNum (parseNumber raw key)))
  /\ (forall d, envBool key d = ([], result_map VBool (parseBoolean raw key)))
  /\ (forall d, envPort key d = ([], result_map VNum (parsePort raw key)))
  /\ (forall d, envUrl key d = ([], result_map VStr (parseUrl raw key)))
  /\ (forall d, envJson key d = ([], parseJson raw key))
  /\ (forall choices d,
        envEnum key choices d =
          if bool_decide (raw ∈ choices) then ([], Ok (VStr raw))
          else ([], Throw (ThrownEnvError
                       (EnvError.mk key
                          ["Expected one of [" ++ JsString.join ", " choices
                             ++ "], got " ++ JsString.dquote ++ raw
                             ++ JsString.dquote])))).
Proof.
  intros Hraw.
  repeat split; intros;
    try (unfold envString, envNumber, envBool, envPort, envUrl, envJson;
         rewrite (env_key_type_default_set _ _ _ _ Hraw); reflexivity).
  apply envEnum_set, Hraw.
Qed.

(** X6. Whatever [envEnum] returns is one of the choices or the default
    it was given. *)
Theorem envEnum_returns_choice (key : string) (choices : list string)
    (d : option string) (v : jsvalue) :
  outcome (envEnum key choices d) = Ok v ->
  (exists s, v = VStr s /\ s ∈ choices) \/ (exists s, d = Some s /\ v = VStr s).
Proof.
  destruct (not_set (Source_read process_env key)) eqn:Hset.
  { rewrite (envEnum_unset key choices d Hset).
    destruct d as [s|]; [|discriminate]. intros [= <-]. right. eauto. }
  destruct (process_env_value key) as [raw|] eqn:Hraw.
  - rewrite (envEnum_set key raw choices d Hraw).
    case_bool_decide as Hmem; [|discriminate].
    intros [= <-]. left. eauto.
  - destruct (envEnum_not_string key choices d Hset) as [e ->]; [|discriminate].
    intros s Hs. unfold process_env_value, present, Source_get in Hraw.
    rewrite Hs in Hraw, Hset. cbn [not_set] in Hset. rewrite Hset in Hraw.
    discriminate.
Qed.

End FurtherEnv.

(** ** Further properties of [normalizeConfig] and [envSchema] *)

Section FurtherSchema.
Context {host : Host}.

Implicit Types (schema entries : EnvSchema) (source : option Source).

(** X7. [normalizeConfig] leaves a full config that has a key as it is,
    fills an empty key with the entry name, is idempotent, and yields a
    non-empty key whenever the entry name is not empty. *)
Theorem normalizeConfig_idempotent (input : schemaEntry) (name : string) :
  normalizeConfig (EntryConfig (normalizeConfig input name)) name
  = normalizeConfig input name
  /\ (name <> EmptyString ->
      EnvVarConfig.key (normalizeConfig input name) <> EmptyString)
  /\ (forall c, input = EntryConfig c ->
        (EnvVarConfig.key c <> EmptyString -> normalizeConfig input name = c)
        /\ (EnvVarConfig.key c = EmptyString ->
            normalizeConfig input name
            = EnvVarConfig.mk name (EnvVarConfig.type c) (EnvVarConfig.default c)
                (EnvVarConfig.required c) (EnvVarConfig.validate c)
                (EnvVarConfig.transform c) (EnvVarConfig.choices c)
                (EnvVarConfig.description c))).
Proof.
  split; [|split].
  - destruct input as [c|s].
    + unfold normalizeConfig. cbn [EnvVarConfig.key EnvVarConfig.type
        EnvVarConfig.default EnvVarConfig.required EnvVarConfig.validate
        EnvVarConfig.transform EnvVarConfig.choices EnvVarConfig.description].
      unfold JsString.eqb.
      destruct (bool_decide (EnvVarConfig.key c = EmptyString)) eqn:Hk.
      * destruct (bool_decide (name = EmptyString)); reflexivity.
      * rewrite Hk. reflexivity.
    + cbn [normalizeConfig].
      destruct (find _ validTypes); apply normalizeConfig_key_type.
  - intros Hname. destruct input as [c|s].
    + unfold normalizeConfig, JsString.eqb. cbn [EnvVarConfig.key].
      case_bool_decide; assumption.
    + cbn [normalizeConfig]. destruct (find _ validTypes); exact Hname.
  - intros c ->. unfold normalizeConfig, JsString.eqb. split.
    + intros Hk. case_bool_decide; [contradiction|]. destruct c; reflexivity.
    + intros Hk. case_bool_decide; [reflexivity|contradiction].
Qed.

Lemma env_source_agree (config : EnvVarConfig.t) source1 source2 :
  same_at (source_or_env source1) (source_or_env source2) (EnvVarConfig.key config) ->
  env config source1 = env config source2.
Proof.
  unfold same_at, env, source_or_env. intros ->. reflexivity.
Qed.

Lemma envSchema_loop_source_agree entries source1 source2 result errors :
  Forall (fun entry =>
            same_at (source_or_env source1) (source_or_env source2)
              (EnvVarConfig.key (normalizeConfig (snd entry) (fst entry)))) entries ->
  envSchema_loop entries source1 result errors
  = envSchema_loop entries source2 result errors.
Proof.
  intros Hall. revert result errors.
  induction Hall as [|[name rawConfig] rest Hx _ IH]; intros result errors;
    [reflexivity|].
  cbn [envSchema_loop]. cbn [fst snd] in Hx.
  rewrite (env_source_agree _ source1 source2 Hx).
  unfold bind at 1 3. destruct (try_catch _ _) as [log [st|e]]; [|reflexivity].
  rewrite IH. reflexivity.
Qed.

(** X8. [envSchema] reads the source only at the keys of the schema's
    configs: two sources that hold the same values for those keys give
    the same calls and the same outcome. *)
Theorem envSchema_source_agree schema source1 source2 :
  Forall (fun entry =>
            same_at (source_or_env source1) (source_or_env source2)
              (EnvVarConfig.key (normalizeConfig (snd entry) (fst entry)))) schema ->
  envSchema schema source1 = envSchema schema source2.
Proof.
  intros Hall. unfold envSchema.
  rewrite (envSchema_loop_source_agree _ _ _ _ _ Hall). reflexivity.
Qed.

(** A config without [transform] and [validate] makes no call and, on
    a key that reads as a string or as [undefined], throws nothing but
    a single-message [EnvError] for its key. *)
Lemma env_no_callbacks (config : EnvVarConfig.t) source :
  string_or_undefined
    (Source_read (source_or_env source) (EnvVarConfig.key config)) = true ->
  EnvVarConfig.transform config = None ->
  EnvVarConfig.validate config = None ->
  log_of (env config source) = []
  /\ forall e, outcome (env config source) = Throw e ->
       exists msg, e = ThrownEnvError (EnvError.mk (EnvVarConfig.key config) [msg]).
Proof.
  intros Hstr Ht Hv.
  destruct (string_or_undefined_cases _ _ Hstr) as [[raw Hraw]|Hraw].
  - rewrite (env_present _ _ _ Hraw).
    destruct (parseValue raw config) as [v|e'] eqn:Hparse.
    + rewrite bind_lift_Ok, env_enum_cases.
      unfold env_transform, env_validate. rewrite Ht, Hv.
      destruct (enum_rejects config v); run_M.
      * split; [reflexivity|]. intros e [= <-]. eauto.
      * split; [reflexivity|]. discriminate.
    + split; [reflexivity|]. intros e [= <-]. eapply parseValue_Throw, Hparse.
  - rewrite (env_unset _ _ Hraw). unfold env_not_set.
    destruct (EnvVarConfig.default config); try (split; [reflexivity|discriminate]).
    destruct (EnvVarConfig.required config) as [[]|];
      (split; [reflexivity|]); try discriminate; intros e [= <-]; eauto.
Qed.

Lemma field_run_shorthand (name s : string) source :
  string_or_undefined (Source_read (source_or_env source) name) = true ->
  log_of (field_run source (name, EntryString s)) = []
  /\ forall e, outcome (field_run source (name, EntryString s)) = Throw e ->
       exists msg, e = ThrownEnvError (EnvError.mk name [msg]).
Proof.
  intros Hstr. unfold field_run. cbn [fst snd normalizeConfig].
  destruct (find _ validTypes);
    apply (env_no_callbacks (key_type name _)); (exact Hstr || reflexivity).
Qed.

Lemma shorthand_runs entries source :
  Forall (fun entry => is_shorthand entry = true) entries ->
  Forall (fun entry =>
            string_or_undefined (Source_read (source_or_env source) (fst entry)) = true)
    entries ->
  Forall (fun entry => is_fault (field_run source entry) = false) entries
  /\ List.concat (map (fun entry => log_of (field_run source entry)) entries) = []
  /\ sublist (map EnvError.key
                (omap (fun entry => field_error (field_run source entry)) entries))
       entries.*1
  /\ Forall (fun e => List.length (EnvError.errors e) = 1%nat)
       (omap (fun entry => field_error (field_run source entry)) entries).
Proof.
  intros Hsh Hstr.
  induction entries as [|[name rawConfig] rest IH]; [repeat split; constructor|].
  inversion Hsh as [|? ? Hx Hsh']; subst. inversion Hstr as [|? ? Hs Hstr']; subst.
  destruct (IH Hsh' Hstr') as (IH1 & IH2 & IH3 & IH4).
  destruct rawConfig as [c|s]; [discriminate Hx|].
  destruct (field_run_shorthand name s source Hs) as [Hlog Hthrow].
  cbn [map List.concat omap list_omap fmap list_fmap fst].
  rewrite Hlog, IH2.
  destruct (outcome (field_run source (name, EntryString s))) as [v|e] eqn:Hout.
  - assert (Hnf : is_fault (field_run source (name, EntryString s)) = false)
      by (unfold is_fault; rewrite Hout; reflexivity).
    assert (Herr : field_error (field_run source (name, EntryString s)) = None)
      by (unfold field_error; rewrite Hout; reflexivity).
    rewrite Herr.
    repeat split; [constructor; assumption| |assumption].
    apply sublist_cons, IH3.
  - destruct (Hthrow e eq_refl) as [msg ->].
    assert (Hnf : is_fault (field_run source (name, EntryString s)) = false)
      by (unfold is_fault; rewrite Hout; reflexivity).
    assert (Herr : field_error (field_run source (name, EntryString s))
                   = Some (EnvError.mk name [msg]))
      by (unfold field_error; rewrite Hout; reflexivity).
    rewrite Herr.
    repeat split; [constructor; assumption| |constructor; [reflexivity|assumption]].
    cbn [map EnvError.key]. apply sublist_skip, IH3.
Qed.

(** X9. A schema made of shorthand strings only, on a source where
    every entry name reads as a string or as [undefined], makes no call
    and never throws anything but an [EnvValidationError]: it returns a
    result whose keys are the entry names other than __proto__, or
    throws a non-empty list of [EnvError]s, each with one message,
    whose keys are entry names in schema order. *)
Theorem envSchema_shorthand schema source :
  Forall (fun entry => is_shorthand entry = true) schema ->
  Forall (fun entry =>
            string_or_undefined (Source_read (source_or_env source) (fst entry)) = true)
    schema ->
  log_of (envSchema schema source) = []
  /\ ((exists result,
         outcome (envSchema schema source) = Ok result
         /\ dom result = list_to_set (own_names schema))
      \/ (exists errs,
            outcome (envSchema schema source)
            = Throw (ThrownEnvValidationError (EnvValidationError.mk errs))
            /\ errs <> []
            /\ sublist (map EnvError.key errs) schema.*1
            /\ Forall (fun e => List.length (EnvError.errors e) = 1%nat) errs)).
Proof.
  intros Hsh Hstr.
  destruct (shorthand_runs schema source Hsh Hstr) as (Hnf & Hlog & Hsub & Hone).
  unfold envSchema. rewrite (envSchema_loop_no_fault _ _ _ _ Hnf), Hlog. cbn [app].
  destruct (omap (fun entry => field_error (field_run source entry)) schema)
    as [|e errs] eqn:Herrs.
  - run_M. split; [reflexivity|]. left.
    destruct (field_values_all _ _ Hnf Herrs) as [Hvals _].
    eexists. split; [reflexivity|].
    rewrite assign_all_dom, Hvals, <- list_fmap_compose, dom_empty_L.
    apply (right_id_L ∅ (∪)).
  - run_M. split; [reflexivity|]. right. exists (e :: errs).
    repeat split; [discriminate|assumption|assumption].
Qed.

Lemma assign_all_union (l : list (string * jsvalue)) (result : gmap string jsvalue) :
  assign_all result l = assign_all ∅ l ∪ result.
Proof.
  revert result. induction l as [|[k v] l IH]; intros result.
  - cbn. by rewrite (left_id_L ∅ (∪)).
  - unfold assign_all. cbn [foldl fst snd].
    fold (assign_all (set_property k v result) l).
    fold (assign_all (set_property k v ∅) l).
    rewrite (IH (set_property k v result)), (IH (set_property k v ∅)).
    rewrite <- (assoc_L (∪)). f_equal. unfold set_property.
    destruct (JsString.eqb k "__proto__"); [by rewrite (left_id_L ∅ (∪))|].
    rewrite <- insert_union_l, (left_id_L ∅ (∪)). reflexivity.
Qed.

Lemma envSchema_no_fault_outcome schema source :
  Forall (fun entry => is_fault (field_run source entry) = false) schema ->
  outcome (envSchema schema source) =
    match omap (fun entry => field_error (field_run source entry)) schema with
    | [] => Ok (assign_all ∅ (omap (field_value source) schema))
    | errs => Throw (ThrownEnvValidationError (EnvValidationError.mk errs))
    end.
Proof.
  intros Hnf. unfold envSchema. rewrite (envSchema_loop_no_fault _ _ _ _ Hnf).
  cbn [app]. run_M. destruct (omap _ schema); reflexivity.
Qed.

(** X10. Schemas compose: when no field throws anything but an
    [EnvError], resolving the concatenation of two schemas succeeds
    exactly when both do, with the second result laid over the first,
    and otherwise throws the errors of the first followed by the errors
    of the second. *)
Theorem envSchema_app schema1 schema2 source :
  Forall (fun entry => is_fault (field_run source entry) = false) schema1 ->
  Forall (fun entry => is_fault (field_run source entry) = false) schema2 ->
  outcome (envSchema (app schema1 schema2) source) =
    match outcome (envSchema schema1 source), outcome (envSchema schema2 source) with
    | Ok r1, Ok r2 => Ok (r2 ∪ r1)
    | Throw (ThrownEnvValidationError e1), Throw (ThrownEnvValidationError e2) =>
        Throw (ThrownEnvValidationError
                 (EnvValidationError.mk
                    (app (EnvValidationError.errors e1) (EnvValidationError.errors e2))))
    | Throw e1, Ok _ => Throw e1
    | _, Throw e2 => Throw e2
    end.
Proof.
  intros Hnf1 Hnf2.
  assert (Hnf : Forall (fun entry => is_fault (field_run source entry) = false)
                  (app schema1 schema2)) by (apply Forall_app; split; assumption).
  rewrite (envSchema_no_fault_outcome _ _ Hnf),
    (envSchema_no_fault_outcome _ _ Hnf1), (envSchema_no_fault_outcome _ _ Hnf2).
  rewrite !omap_app.
  destruct (omap (fun entry => field_error (field_run source entry)) schema1) as [|e1 errs1];
    destruct (omap (fun entry => field_error (field_run source entry)) schema2) as [|e2 errs2];
    cbn [app EnvValidationError.errors]; try reflexivity.
  - unfold assign_all at 1. rewrite foldl_app.
    fold (assign_all ∅ (omap (field_value source) schema1)).
    fold (assign_all (assign_all ∅ (omap (field_value source) schema1))
            (omap (field_value source) schema2)).
    rewrite assign_all_union. reflexivity.
  - rewrite app_nil_r. reflexivity.
Qed.

End FurtherSchema.

(** ** Further properties of the type parsers *)

Section FurtherParsers.

(** *** Blank strings *)

Lemma trim_allWhiteSpace (s : string) :
  allWhiteSpace s = true -> JsString.trim s = EmptyString.
Proof.
  intros H. unfold JsString.trim.
  assert (Hs : JsString.trimStart s = EmptyString).
  { induction s as [|c s IH]; [reflexivity|]. cbn in H |- *.
    apply andb_true_iff in H as [-> Hs]. apply IH, Hs. }
  rewrite Hs. reflexivity.
Qed.

Lemma allWhiteSpace_toLowerCase (s : string) :
  allWhiteSpace (JsString.toLowerCase s) = allWhiteSpace s.
Proof.
  induction s as [|c s IH]; [reflexivity|].
  cbn. rewrite isWhiteSpace_lowerChar, IH. reflexivity.
Qed.

(** *** Integers below 2 ^ 53 are exact *)

Lemma digits2_pos_bounds (p : positive) :
  2 ^ (Z.pos (digits2_pos p) - 1) <= Z.pos p < 2 ^ Z.pos (digits2_pos p).
Proof.
  induction p as [p IH|p IH|]; cbn [digits2_pos].
  - rewrite Pos2Z.inj_succ, Pos2Z.inj_xI.
    set (d := Z.pos (digits2_pos p)) in *.
    replace (Z.succ d - 1) with (Z.succ (d - 1)) by lia.
    rewrite (Z.pow_succ_r 2 (d - 1)), (Z.pow_succ_r 2 d) by lia. lia.
  - rewrite Pos2Z.inj_succ, (Pos2Z.inj_xO p).
    set (d := Z.pos (digits2_pos p)) in *.
    replace (Z.succ d - 1) with (Z.succ (d - 1)) by lia.
    rewrite (Z.pow_succ_r 2 (d - 1)), (Z.pow_succ_r 2 d) by lia. lia.
  - cbn. lia.
Qed.

Lemma Zdigits2_le (m k : Z) : 0 < m < 2 ^ k -> Zdigits2 m <= k.
Proof.
  intros [Hm Hk]. destruct m as [|p|p]; try lia. cbn [Zdigits2].
  destruct (Z.le_gt_cases 0 k) as [Hk0|Hk0].
  - pose proof (digits2_pos_bounds p) as [Hlo _].
    assert (Hlt : 2 ^ (Z.pos (digits2_pos p) - 1) < 2 ^ k) by lia.
    apply Z.pow_lt_mono_r_iff in Hlt; lia.
  - rewrite Z.pow_neg_r in Hk by lia. lia.
Qed.

Lemma digits2_pos_iter_xO (p k : positive) :
  digits2_pos (Pos.iter xO p k) = (digits2_pos p + k)%positive.
Proof.
  induction k as [|k IH] using Pos.peano_ind.
  - cbn. lia.
  - rewrite Pos.iter_succ. cbn [digits2_pos]. rewrite IH. lia.
Qed.

Lemma Zpos_iter_xO (p k : positive) :
  Z.pos (Pos.iter xO p k) = Z.pos p * 2 ^ Z.pos k.
Proof.
  induction k as [|k IH] using Pos.peano_ind.
  - cbn. lia.
  - rewrite Pos.iter_succ, (Pos2Z.inj_xO (Pos.iter xO p k)), IH, Pos2Z.inj_succ,
      Z.pow_succ_r by lia. lia.
Qed.

(** Rounding leaves a canonical mantissa with an exact location as it is. *)
Lemma binary_round_aux_canonical (neg : bool) (m : positive) (e : Z) :
  fexp JsNumber.prec JsNumber.emax (Z.pos (digits2_pos m) + e) = e ->
  e <= JsNumber.emax - JsNumber.prec ->
  binary_round_aux JsNumber.prec JsNumber.emax neg (Z.pos m) e loc_Exact
  = S754_finite neg m e.
Proof.
  intros Hcanon He. unfold binary_round_aux, shr_fexp.
  cbn [Zdigits2 shr_record_of_loc]. rewrite Hcanon, Z.sub_diag.
  cbn [shr shr_m loc_of_shr_record round_nearest_even Zdigits2 shr_record_of_loc].
  rewrite Hcanon, Z.sub_diag. cbn [shr shr_m].
  destruct (Z.leb_spec e (JsNumber.emax - JsNumber.prec)); [reflexivity|lia].
Qed.

Lemma ofZ_small (p : positive) :
  Z.pos (digits2_pos p) <= 53 ->
  exists m e, JsNumber.ofZ (Z.pos p) = S754_finite false m e
              /\ e <= 0 /\ Z.pos m = Z.pos p * 2 ^ (- e).
Proof.
  intros Hd. unfold JsNumber.ofZ, binary_normalize, binary_round.
  set (d := Z.pos (digits2_pos p)) in *.
  assert (Hfexp : fexp JsNumber.prec JsNumber.emax (d + 0) = d - 53).
  { unfold fexp, emin, JsNumber.prec, JsNumber.emax. lia. }
  rewrite Hfexp. unfold shl_align.
  destruct (d - 53 - 0) as [|k|k] eqn:Hk; try lia.
  - exists p, 0. split; [|split; [lia|cbn; lia]].
    apply binary_round_aux_canonical.
    + fold d. rewrite Hfexp. lia.
    + unfold JsNumber.prec, JsNumber.emax. lia.
  - exists (Pos.iter xO p k), (d - 53). split; [|split; [lia|]].
    + apply binary_round_aux_canonical.
      * rewrite digits2_pos_iter_xO, Pos2Z.inj_add. fold d.
        unfold fexp, emin, JsNumber.prec, JsNumber.emax. lia.
      * unfold JsNumber.prec, JsNumber.emax. lia.
    + rewrite Zpos_iter_xO. do 2 f_equal. lia.
Qed.

(** The number nearest to an integer below 2 ^ 53 denotes that integer. *)
Lemma toZ_ofZ_exact (z : Z) :
  0 <= z < 2 ^ 53 -> JsNumber.toZ (JsNumber.ofZ z) = Some z.
Proof.
  intros [Hz0 Hz]. destruct z as [|p|p]; [reflexivity| |lia].
  assert (Hd : Z.pos (digits2_pos p) <= 53).
  { apply (Zdigits2_le (Z.pos p) 53). lia. }
  destruct (ofZ_small p Hd) as (m & e & -> & He & Hm).
  apply toZ_denotes. exists (Z.pos m), e. split; [reflexivity|].
  unfold denotes. destruct (Z.eq_dec e 0) as [->|Hne].
  - left. split; [lia|]. cbn in Hm |- *. lia.
  - right. split; [lia|exact Hm].
Qed.

(** *** Integers from 2 ^ 53 on stay large *)

Lemma shr_1_div2 (mrs : shr_record) :
  0 <= shr_m mrs -> shr_m (shr_1 mrs) = shr_m mrs / 2.
Proof.
  destruct mrs as [m r t]. cbn [shr_m]. intros Hm.
  destruct m as [|[p|p|]|p]; cbn [shr_1 shr_m]; try lia.
  - reflexivity.
  - apply (Z.div_unique _ _ _ 1); lia.
  - apply (Z.div_unique _ _ _ 0); lia.
  - apply (Z.div_unique _ _ _ 1); lia.
Qed.

Lemma iter_pos_shr_1_div (n : positive) (mrs : shr_record) :
  0 <= shr_m mrs ->
  shr_m (SpecFloat.iter_pos shr_1 n mrs) = shr_m mrs / 2 ^ Z.pos n.
Proof.
  revert mrs. induction n as [n IH|n IH|]; intros mrs Hm; cbn [SpecFloat.iter_pos].
  - rewrite IH by (apply iter_pos_shr_1_nonneg, shr_1_nonneg, Hm).
    rewrite IH by (apply shr_1_nonneg, Hm). rewrite shr_1_div2 by exact Hm.
    assert (Hp : 0 < 2 ^ Z.pos n) by (apply Z.pow_pos_nonneg; lia).
    rewrite !Z.div_div by lia. f_equal.
    replace (Z.pos n~1) with (Z.pos n + Z.pos n + 1) by lia.
    rewrite !Z.pow_add_r by lia. lia.
  - rewrite IH by (apply iter_pos_shr_1_nonneg, Hm). rewrite IH by exact Hm.
    assert (Hp : 0 < 2 ^ Z.pos n) by (apply Z.pow_pos_nonneg; lia).
    rewrite !Z.div_div by lia. f_equal.
    replace (Z.pos n~0) with (Z.pos n + Z.pos n) by lia.
    rewrite !Z.pow_add_r by lia. lia.
  - rewrite shr_1_div2 by exact Hm. reflexivity.
Qed.

Lemma shr_fexp_cases (m e : Z) (l : location) :
  0 <= m ->
  let n := fexp JsNumber.prec JsNumber.emax (Zdigits2 m + e) - e in
  let r := shr_fexp JsNumber.prec JsNumber.emax m e l in
  (n <= 0 /\ shr_m (fst r) = m /\ snd r = e)
  \/ (0 < n /\ shr_m (fst r) = m / 2 ^ n /\ snd r = e + n).
Proof.
  intros Hm. cbv zeta. unfold shr_fexp, shr.
  assert (H0 : shr_m (shr_record_of_loc m l) = m) by (destruct l as [|[]]; reflexivity).
  destruct (fexp JsNumber.prec JsNumber.emax (Zdigits2 m + e) - e) as [|k|k].
  - left. cbn [fst snd]. split; [lia|]. split; [exact H0|reflexivity].
  - right. cbn [fst snd]. split; [lia|]. split; [|reflexivity].
    rewrite iter_pos_shr_1_div by lia. rewrite H0. reflexivity.
  - left. cbn [fst snd]. split; [lia|]. split; [exact H0|reflexivity].
Qed.

Lemma round_nearest_even_bounds (m : Z) (l : location) :
  m <= round_nearest_even m l <= m + 1.
Proof. destruct l as [|[]]; cbn; try destruct (Z.even m); lia. Qed.

Lemma ofZ_large (p : positive) :
  54 <= Z.pos (digits2_pos p) ->
  JsNumber.ofZ (Z.pos p) = S754_infinity false
  \/ exists m e, JsNumber.ofZ (Z.pos p) = S754_finite false m e
                 /\ 1 <= e /\ 2 ^ 51 <= Z.pos m.
Proof.
  intros Hd. unfold JsNumber.ofZ, binary_normalize, binary_round.
  pose proof (digits2_pos_bounds p) as [Hlo Hhi].
  set (d := Z.pos (digits2_pos p)) in *.
  assert (Hfexp : fexp JsNumber.prec JsNumber.emax (d + 0) = d - 53).
  { unfold fexp, emin, JsNumber.prec, JsNumber.emax. lia. }
  rewrite Hfexp. unfold shl_align.
  destruct (d - 53 - 0) as [|k|k] eqn:Hk; try lia.
  unfold binary_round_aux.
  destruct (shr_fexp_cases (Z.pos p) 0 loc_Exact ltac:(lia)) as [(Hn & _)|(Hn & Hq & He')];
    cbn [Zdigits2] in *; fold d in Hn; [rewrite Hfexp in Hn; lia|].
  fold d in Hq, He'. rewrite Hfexp in Hq, He'.
  destruct (shr_fexp JsNumber.prec JsNumber.emax (Z.pos p) 0 loc_Exact) as [mrs' e'].
  cbn [fst snd] in Hq, He'.
  assert (Hk2 : 0 < 2 ^ (d - 53)) by (apply Z.pow_pos_nonneg; lia).
  assert (H52 : 2 ^ (d - 1) = 2 ^ (d - 53) * 2 ^ 52).
  { rewrite <- Z.pow_add_r by lia. f_equal. lia. }
  assert (H53 : 2 ^ d = 2 ^ (d - 53) * 2 ^ 53).
  { rewrite <- Z.pow_add_r by lia. f_equal. lia. }
  assert (Hq52 : 2 ^ 52 <= shr_m mrs').
  { rewrite Hq, Z.sub_0_r. apply Z.div_le_lower_bound; lia. }
  assert (Hq53 : shr_m mrs' < 2 ^ 53).
  { rewrite Hq, Z.sub_0_r. apply Z.div_lt_upper_bound; lia. }
  set (q1 := round_nearest_even (shr_m mrs') (loc_of_shr_record mrs')).
  pose proof (round_nearest_even_bounds (shr_m mrs') (loc_of_shr_record mrs')) as Hq1.
  fold q1 in Hq1.
  assert (E51 : 2 ^ 51 = 2251799813685248) by reflexivity.
  assert (E52 : 2 ^ 52 = 4503599627370496) by reflexivity.
  assert (E53 : 2 ^ 53 = 9007199254740992) by reflexivity.
  assert (E54 : 2 ^ 54 = 18014398509481984) by reflexivity.
  assert (Hdq : Zdigits2 q1 <= 54) by (apply Zdigits2_le; lia).
  destruct (shr_fexp_cases q1 e' loc_Exact ltac:(lia)) as [(Hn2 & Hm2 & He2)|(Hn2 & Hm2 & He2)];
    destruct (shr_fexp JsNumber.prec JsNumber.emax q1 e' loc_Exact) as [mrs'' e''];
    cbn [fst snd] in Hm2, He2.
  - destruct (shr_m mrs'') as [|m|m]; try lia.
    destruct (e'' <=? JsNumber.emax - JsNumber.prec); [right|left; reflexivity].
    exists m, e''. split; [reflexivity|]. lia.
  - assert (Hn1 : fexp JsNumber.prec JsNumber.emax (Zdigits2 q1 + e') - e' = 1).
    { unfold fexp, emin, JsNumber.prec, JsNumber.emax in *. lia. }
    rewrite Hn1 in Hm2, He2. change (2 ^ 1) with 2 in Hm2.
    assert (Hm51 : 2 ^ 51 <= shr_m mrs'').
    { rewrite Hm2. apply Z.div_le_lower_bound; lia. }
    destruct (shr_m mrs'') as [|m|m]; try lia.
    destruct (e'' <=? JsNumber.emax - JsNumber.prec); [right|left; reflexivity].
    exists m, e''. split; [reflexivity|]. lia.
Qed.

(** The number nearest to an integer from 2 ^ 53 on is infinite or
    denotes an integer above 65535. *)
Lemma toZ_ofZ_large (z : Z) :
  2 ^ 53 <= z ->
  match JsNumber.toZ (JsNumber.ofZ z) with
  | Some z' => 65535 < z'
  | None => True
  end.
Proof.
  intros Hz. assert (E53 : 2 ^ 53 = 9007199254740992) by reflexivity.
  destruct z as [|p|p]; try lia.
  assert (Hd : 54 <= Z.pos (digits2_pos p)).
  { pose proof (digits2_pos_bounds p) as [_ Hhi].
    assert (Hlt : 2 ^ 53 < 2 ^ Z.pos (digits2_pos p)) by lia.
    apply Z.pow_lt_mono_r_iff in Hlt; lia. }
  destruct (ofZ_large p Hd) as [->|(m & e & -> & He & Hm)]; [exact I|].
  unfold JsNumber.toZ. cbn [JsNumber.finite].
  destruct (Z.leb_spec 0 e); [|lia].
  assert (E51 : 2 ^ 51 = 2251799813685248) by reflexivity.
  assert (H2e : 2 ^ 1 <= 2 ^ e) by (apply Z.pow_le_mono_r; lia).
  change (2 ^ 1) with 2 in H2e. nia.
Qed.

(** *** What [parsePort] decides, and digit strings *)

Lemma parsePort_decides (raw key : string) :
  parsePort raw key =
    match JsNumber.toZ (JsNumber.Number raw) with
    | Some z =>
        if (0 <=? z) && (z <=? 65535) then Ok (JsNumber.Number raw)
        else Throw (ThrownEnvError
                      (EnvError.mk key
                         ["Expected a port (0-65535), got " ++ JsString.dquote
                            ++ raw ++ JsString.dquote]))
    | None =>
        Throw (ThrownEnvError
                 (EnvError.mk key
                    ["Expected a port (0-65535), got " ++ JsString.dquote
                       ++ raw ++ JsString.dquote]))
    end.
Proof.
  unfold parsePort. set (num := JsNumber.Number raw).
  unfold JsNumber.isInteger, JsNumber.gt.
  destruct (JsNumber.toZ num) as [z|] eqn:Hz.
  - rewrite (toZ_not_nan _ _ Hz).
    rewrite (lt_toZ num (JsNumber.ofZ 0) z 0 Hz eq_refl).
    rewrite (lt_toZ (JsNumber.ofZ 65535) num 65535 z eq_refl Hz).
    cbn [negb orb].
    destruct (Z.ltb_spec z 0), (Z.leb_spec 0 z), (Z.ltb_spec 65535 z),
      (Z.leb_spec z 65535); try lia; reflexivity.
  - cbn [negb]. rewrite orb_true_r. reflexivity.
Qed.

Lemma append_EmptyString_r (s : string) : s ++ EmptyString = s.
Proof.
  induction s as [|c s IH]; [reflexivity|].
  change (String c s ++ EmptyString) with (String c (s ++ EmptyString)).
  rewrite IH. reflexivity.
Qed.

Lemma decimalValue_nonneg (s : string) (acc : Z) :
  allDecimalDigits s = true -> 0 <= acc -> 0 <= decimalValue acc s.
Proof.
  revert acc. induction s as [|c s IH]; intros acc Hs Hacc; [exact Hacc|].
  cbn in Hs |- *. apply andb_true_iff in Hs as [Hc Hs].
  unfold isDecimalDigit in Hc. apply andb_true_iff in Hc as [Hc _].
  apply Z.leb_le in Hc. apply IH; [exact Hs|lia].
Qed.

(** [Number] of a string of digits is the number nearest to the integer
    the digits denote. *)
Lemma Number_digits (s : string) :
  isDecimalDigits s = true ->
  JsNumber.Number s = JsNumber.ofZ (decimalValue 0 s).
Proof.
  intros Hs.
  pose proof (Number_plainDecimal false s None Hs ltac:(discriminate)) as HN.
  replace (plainDecimal false s None) with s in HN
    by (unfold plainDecimal; symmetry; apply append_EmptyString_r).
  unfold plainDecimalValue in HN. cbv zeta in HN.
  rewrite append_EmptyString_r in HN. rewrite HN.
  assert (Hs' : allDecimalDigits s = true) by (destruct s; [discriminate|exact Hs]).
  pose proof (decimalValue_nonneg s 0 Hs' ltac:(lia)) as Hz.
  unfold JsNumber.ofDecimal, JsNumber.ofZ, binary_normalize.
  destruct (decimalValue 0 s) as [|p|p]; [reflexivity| |lia].
  cbn [Z.to_N String.length Z.of_nat Z.opp Z.leb Z.compare Z.pow Z.to_pos Z.pow_pos Pos.iter].
  change (Z.to_pos (10 ^ 0)) with 1%positive.
  rewrite Pos.mul_1_r. reflexivity.
Qed.

Lemma ofZ_not_nan (z : Z) : JsNumber.isNaN (JsNumber.ofZ z) = false.
Proof.
  unfold JsNumber.ofZ, binary_normalize. destruct z as [|p|p]; [reflexivity| |];
    unfold binary_round; destruct (shl_align _ _ _) as [mz ez];
    apply binary_round_aux_not_nan; lia.
Qed.

(** X11. A raw value made of white space only is not rejected by the
    numeric parsers: [parseNumber] and [parsePort] return 0 for it, so
    [env] with type number yields 0 when the variable is set to blanks;
    [parseBoolean] throws. *)
Theorem blank_raw_value (raw key : string) :
  allWhiteSpace raw = true ->
  parseNumber raw key = Ok (S754_zero false)
  /\ parsePort raw key = Ok (S754_zero false)
  /\ parseBoolean raw key
     = Throw (ThrownEnvError
                (EnvError.mk key
                   ["Expected a boolean, got " ++ JsString.dquote ++ raw
                      ++ JsString.dquote
                      ++ ". Use true/false, 1/0, yes/no, or on/off"]))
  /\ (raw <> EmptyString ->
      forall host : Host,
        env (key_type key TNumber) (source_of key raw)
        = ([], Ok (VNum (S754_zero false)))).
Proof.
  intros Hws.
  assert (HN : JsNumber.Number raw = S754_zero false).
  { unfold JsNumber.Number, JsNumber.parseStringNumericLiteral.
    rewrite (trim_allWhiteSpace raw Hws). reflexivity. }
  assert (Hnum : parseNumber raw key = Ok (S754_zero false)).
  { unfold parseNumber. rewrite HN. reflexivity. }
  split; [exact Hnum|]. split; [|split].
  - rewrite parsePort_decides, HN. reflexivity.
  - unfold parseBoolean.
    rewrite (trim_allWhiteSpace (JsString.toLowerCase raw))
      by (rewrite allWhiteSpace_toLowerCase; exact Hws).
    reflexivity.
  - intros Hne host.
    assert (Hraw : present (Source_get (source_or_env (source_of key raw))
                              (EnvVarConfig.key (key_type key TNumber))) = Some raw).
    { unfold source_or_env, source_of, Source_get. cbn [EnvVarConfig.key key_type].
      rewrite Source_read_source_of. unfold present, JsString.eqb.
      case_bool_decide; [contradiction|reflexivity]. }
    rewrite (env_present _ _ raw Hraw).
    cbn [parseValue EnvVarConfig.type EnvVarConfig.key key_type].
    rewrite Hnum. reflexivity.
Qed.

(** X12. Every string [parsePort] accepts is accepted by [parseNumber]
    with the same number. *)
Theorem parsePort_implies_parseNumber (raw key key' : string) (n : JsNumber.number) :
  parsePort raw key = Ok n -> parseNumber raw key' = Ok n.
Proof.
  intros Hport. apply parsePort_Ok_range in Hport as [-> (z & Hz & _)].
  unfold parseNumber. rewrite (toZ_not_nan _ _ Hz). reflexivity.
Qed.

(** X13. On a string of decimal digits [parseNumber] returns the number
    nearest to the integer the digits denote (leading zeros allowed),
    and that number denotes the integer exactly when it is below
    2 ^ 53. *)
Theorem parseNumber_digits (s key : string) :
  isDecimalDigits s = true ->
  parseNumber s key = Ok (JsNumber.ofZ (decimalValue 0 s))
  /\ (decimalValue 0 s < 2 ^ 53 ->
      JsNumber.toZ (JsNumber.ofZ (decimalValue 0 s)) = Some (decimalValue 0 s)).
Proof.
  intros Hs. split.
  - unfold parseNumber. rewrite (Number_digits s Hs), ofZ_not_nan. reflexivity.
  - intros Hlt. apply toZ_ofZ_exact. split; [|exact Hlt].
    apply decimalValue_nonneg; [|lia]. destruct s; [discriminate|exact Hs].
Qed.

(** X14. On a string of decimal digits, however long, [parsePort]
    succeeds exactly when the integer the digits denote is at most
    65535, and then returns the number nearest to it. *)
Theorem parsePort_digits (s key : string) :
  isDecimalDigits s = true ->
  parsePort s key =
    if decimalValue 0 s <=? 65535 then Ok (JsNumber.ofZ (decimalValue 0 s))
    else Throw (ThrownEnvError
                  (EnvError.mk key
                     ["Expected a port (0-65535), got " ++ JsString.dquote ++ s
                        ++ JsString.dquote])).
Proof.
  intros Hs. rewrite parsePort_decides, (Number_digits s Hs).
  assert (Hz : 0 <= decimalValue 0 s).
  { apply decimalValue_nonneg; [|lia]. destruct s; [discriminate|exact Hs]. }
  set (z := decimalValue 0 s) in *.
  assert (E53 : 2 ^ 53 = 9007199254740992) by reflexivity.
  destruct (Z.lt_ge_cases z (2 ^ 53)) as [Hsmall|Hbig].
  - rewrite (toZ_ofZ_exact z (conj Hz Hsmall)).
    destruct (Z.leb_spec 0 z); [|lia]. reflexivity.
  - pose proof (toZ_ofZ_large z Hbig) as Hlarge.
    destruct (Z.leb_spec z 65535); [lia|].
    destruct (JsNumber.toZ (JsNumber.ofZ z)) as [z'|]; [|reflexivity].
    destruct (Z.leb_spec z' 65535); [lia|]. rewrite andb_false_r. reflexivity.
Qed.

End FurtherParsers.

Section FurtherHelpers.
Context {host : Host}.

(** X15. The helpers call no user function and, when reading the key
    from [process.env] yields a string or [undefined], throw nothing
    but an [EnvError] for their key with one message: what [JSON.parse]
    or [new URL] throws never reaches the caller. *)
Theorem helpers_throw_EnvError (key : string) (ds du de : option string)
    (dn dp : option JsNumber.number) (db : option bool) (dj : jsvalue)
    (choices : list string) (m : M jsvalue) :
  string_or_undefined (Source_read process_env key) = true ->
  m ∈ [envString key ds; envNumber key dn; envBool key db; envPort key dp;
       envUrl key du; envJson key dj; envEnum key choices de] ->
  log_of m = []
  /\ forall e, outcome m = Throw e ->
       exists msg, e = ThrownEnvError (EnvError.mk key [msg]).
Proof.
  intros Hstr. rewrite !elem_of_cons, elem_of_nil.
  intros [->|[->|[->|[->|[->|[->|[->|[]]]]]]]];
    unfold envString, envNumber, envBool, envPort, envUrl, envJson, envEnum;
    match goal with
    | |- context [env ?c None] =>
        apply (env_no_callbacks c None); (exact Hstr || reflexivity)
    end.
Qed.

End FurtherHelpers.

(** ** The further statements at concrete inputs *)

Lemma env_present_ignores_default_witness :
  present (Source_get (source_or_env (host := bare_host) (source_of "PORT" "8080"))
             (EnvVarConfig.key config_port_default)) = Some "8080"
  /\ env (host := bare_host) (with_default_required config_port_default VUndefined None)
       (source_of "PORT" "8080")
     = env (host := bare_host) config_port_default (source_of "PORT" "8080").
Proof.
  split; [reflexivity|].
  apply (env_present_ignores_default (host := bare_host) config_port_default
           (source_of "PORT" "8080") "8080" VUndefined None).
  reflexivity.
Defined.

Lemma env_result_well_typed_witness :
  string_or_undefined (Source_read (plain_object {[ "P" := Some "8080" ]}) "P") = true
  /\ EnvVarConfig.transform (key_type "P" TPort) = None
  /\ outcome (env (host := bare_host) (key_type "P" TPort) (source_of "P" "8080"))
     = Ok (VNum (JsNumber.ofZ 8080))
  /\ well_typed (host := bare_host) (key_type "P" TPort) "8080" (VNum (JsNumber.ofZ 8080)).
Proof.
  assert (Hout : outcome (env (host := bare_host) (key_type "P" TPort)
                            (source_of "P" "8080"))
                 = Ok (VNum (JsNumber.ofZ 8080))) by (vm_compute; reflexivity).
  split; [reflexivity|]. split; [reflexivity|]. split; [exact Hout|].
  exact (env_result_well_typed (host := bare_host) (key_type "P" TPort)
           (source_of "P" "8080") (VNum (JsNumber.ofZ 8080)) eq_refl eq_refl Hout).
Defined.

Lemma helpers_unset_witness :
  not_set (Source_read (process_env (Host := bare_host)) "PORT") = true
  /\ envPort (host := bare_host) "PORT" (Some (JsNumber.ofZ 3000))
     = ([], Ok (VNum (JsNumber.ofZ 3000))).
Proof.
  split; [reflexivity|].
  apply (proj1 (proj2 (proj2 (proj2 (helpers_unset (host := bare_host) "PORT" eq_refl))))
           (Some (JsNumber.ofZ 3000))).
Defined.

Lemma helpers_set_witness :
  process_env_value (host := host_with_env) "PORT" = Some "8080"
  /\ envPort (host := host_with_env) "PORT" (Some (JsNumber.ofZ 3000))
     = ([], Ok (VNum (JsNumber.ofZ 8080))).
Proof.
  split; [reflexivity|].
  rewrite (proj1 (proj2 (proj2 (proj2 (helpers_set (host := host_with_env)
                                         "PORT" "8080" eq_refl))))
             (Some (JsNumber.ofZ 3000))).
  vm_compute. reflexivity.
Defined.

Lemma envEnum_returns_choice_witness :
  outcome (envEnum (host := host_with_env) "NODE_ENV" ["dev"; "prod"; "test"] None)
  = Ok (VStr "prod")
  /\ ((exists s, VStr "prod" = VStr s /\ s ∈ ["dev"; "prod"; "test"])
      \/ (exists s, @None string = Some s /\ VStr "prod" = VStr s)).
Proof.
  assert (Hout : outcome (envEnum (host := host_with_env) "NODE_ENV"
                            ["dev"; "prod"; "test"] None)
                 = Ok (VStr "prod")) by (vm_compute; reflexivity).
  split; [exact Hout|].
  exact (envEnum_returns_choice (host := host_with_env) "NODE_ENV"
           ["dev"; "prod"; "test"] None (VStr "prod") Hout).
Defined.

Lemma normalizeConfig_idempotent_witness :
  "FOO" <> EmptyString
  /\ EnvVarConfig.key (normalizeConfig (EntryString "number") "FOO") <> EmptyString.
Proof.
  assert (Hne : "FOO" <> EmptyString) by discriminate.
  split; [exact Hne|].
  exact (proj1 (proj2 (normalizeConfig_idempotent (EntryString "number") "FOO")) Hne).
Defined.

Lemma envSchema_source_agree_witness :
  Forall (fun entry =>
            same_at (source_or_env (host := bare_host) empty_source)
              (source_or_env (host := bare_host) (source_of "OTHER" "x"))
              (EnvVarConfig.key (normalizeConfig (snd entry) (fst entry))))
    schema_three_required
  /\ envSchema (host := bare_host) schema_three_required empty_source
     = envSchema (host := bare_host) schema_three_required (source_of "OTHER" "x").
Proof.
  assert (Hall : Forall (fun entry =>
                           same_at (source_or_env (host := bare_host) empty_source)
                             (source_or_env (host := bare_host) (source_of "OTHER" "x"))
                             (EnvVarConfig.key (normalizeConfig (snd entry) (fst entry))))
                   schema_three_required).
  { repeat constructor. }
  split; [exact Hall|].
  exact (envSchema_source_agree (host := bare_host) schema_three_required
           empty_source (source_of "OTHER" "x") Hall).
Defined.

Lemma envSchema_shorthand_witness :
  Forall (fun entry => is_shorthand entry = true) schema_shorthand
  /\ Forall (fun entry =>
               string_or_undefined
                 (Source_read (source_or_env (host := bare_host) empty_source)
                    (fst entry)) = true)
       schema_shorthand
  /\ log_of (envSchema (host := bare_host) schema_shorthand empty_source) = [].
Proof.
  assert (Hall : Forall (fun entry => is_shorthand entry = true) schema_shorthand)
    by (repeat constructor).
  assert (Hstr : Forall (fun entry =>
                           string_or_undefined
                             (Source_read (source_or_env (host := bare_host) empty_source)
                                (fst entry)) = true)
                   schema_shorthand)
    by (repeat constructor).
  split; [exact Hall|]. split; [exact Hstr|].
  exact (proj1 (envSchema_shorthand (host := bare_host) schema_shorthand empty_source
                  Hall Hstr)).
Defined.

Lemma envSchema_app_witness :
  Forall (fun entry => is_fault (field_run (host := bare_host) empty_source entry) = false)
    schema_shorthand
  /\ Forall (fun entry => is_fault (field_run (host := bare_host) empty_source entry) = false)
       schema_three_required
  /\ outcome (envSchema (host := bare_host)
                (app schema_shorthand schema_three_required) empty_source)
     = Throw (ThrownEnvValidationError
                (EnvValidationError.mk
                   [EnvError.mk "FOO" ["Required but not set"];
                    EnvError.mk "BAR" ["Required but not set"];
                    EnvError.mk "A" ["Required but not set"];
                    EnvError.mk "B" ["Required but not set"];
                    EnvError.mk "C" ["Required but not set"]])).
Proof.
  assert (H1 : Forall (fun entry =>
                         is_fault (field_run (host := bare_host) empty_source entry) = false)
                 schema_shorthand) by (repeat constructor).
  assert (H2 : Forall (fun entry =>
                         is_fault (field_run (host := bare_host) empty_source entry) = false)
                 schema_three_required) by (repeat constructor).
  split; [exact H1|]. split; [exact H2|].
  rewrite (envSchema_app (host := bare_host) schema_shorthand schema_three_required
             empty_source H1 H2).
  vm_compute. reflexivity.
Defined.

Lemma blank_raw_value_witness :
  allWhiteSpace "   " = true
  /\ parseNumber "   " "N" = Ok (S754_zero false).
Proof.
  split; [reflexivity|].
  exact (proj1 (blank_raw_value "   " "N" eq_refl)).
Defined.

Lemma parsePort_implies_parseNumber_witness :
  parsePort "8080" "P" = Ok (JsNumber.ofZ 8080)
  /\ parseNumber "8080" "N" = Ok (JsNumber.ofZ 8080).
Proof.
  assert (Hport : parsePort "8080" "P" = Ok (JsNumber.ofZ 8080))
    by (vm_compute; reflexivity).
  split; [exact Hport|].
  exact (parsePort_implies_parseNumber "8080" "P" "N" (JsNumber.ofZ 8080) Hport).
Defined.

Lemma parseNumber_digits_witness :
  isDecimalDigits "0042" = true
  /\ parseNumber "0042" "N" = Ok (JsNumber.ofZ 42).
Proof.
  split; [reflexivity|].
  exact (proj1 (parseNumber_digits "0042" "N" eq_refl)).
Defined.

Lemma parsePort_digits_witness :
  isDecimalDigits "65536" = true
  /\ parsePort "65536" "P"
     = Throw (ThrownEnvError
                (EnvError.mk "P"
                   ["Expected a port (0-65535), got " ++ JsString.dquote ++ "65536"
                      ++ JsString.dquote])).
Proof.
  split; [reflexivity|].
  exact (parsePort_digits "65536" "P" eq_refl).
Defined.

Lemma helpers_throw_EnvError_witness :
  string_or_undefined (Source_read (process_env (Host := bare_host)) "U") = true
  /\ envUrl (host := bare_host) "U" None
    ∈ [envString (host := bare_host) "U" None;
       envNumber (host := bare_host) "U" None;
       envBool (host := bare_host) "U" None;
       envPort (host := bare_host) "U" None;
       envUrl (host := bare_host) "U" None;
       envJson (host := bare_host) "U" VUndefined;
       envEnum (host := bare_host) "U" [] None]
  /\ log_of (envUrl (host := bare_host) "U" None) = [].
Proof.
  assert (Hin : envUrl (host := bare_host) "U" None
                  ∈ [envString (host := bare_host) "U" None;
                     envNumber (host := bare_host) "U" None;
                     envBool (host := bare_host) "U" None;
                     envPort (host := bare_host) "U" None;
                     envUrl (host := bare_host) "U" None;
                     envJson (host := bare_host) "U" VUndefined;
                     envEnum (host := bare_host) "U" [] None]).
  { rewrite !elem_of_cons. do 4 right. left. reflexivity. }
  split; [reflexivity|]. split; [exact Hin|].
  exact (proj1 (helpers_throw_EnvError (host := bare_host) "U" None None None None None
                  None VUndefined [] _ eq_refl Hin)).
Defined.
